(** * The Google Meet recorder (spawner/src/index.ts)

    A shallow embedding of [GoogleMeetRecorder] and of the process entry
    point.  The browser engine, the screen recorder, the file system and the
    clock are collaborators: each call to one of them is answered by a
    [World], which sees the whole history of the process, and is written to
    a trace together with its outcome.  Rejected promises and thrown errors
    are abrupt completions of a small monad with an explicit
    try / catch / finally. *)

From Stdlib Require Import List String Ascii ZArith Lia Bool Arith.
From Stdlib Require Import DecimalString DecimalZ DecimalPos.
Import ListNotations.
Open Scope string_scope.
Open Scope list_scope.
Open Scope Z_scope.

(** ** Values, errors, collaborator operations *)

(** An [ElementHandle] is known by its identity only. *)
Definition Handle := nat.

(** What a throw carries.  [Error m] is an object this program builds with
    [new Error(m)]; [Rejection r] is whatever a collaborator threw.  The two
    never coincide: an object made by [new Error] here is not an object made
    elsewhere. *)
Inductive Exn : Type :=
| Error (message : string)
| Rejection (reason : string).

(** The script handed to [page.evaluate]. *)
Inductive Script : Type :=
| StubMediaDevices      (* lines 83-92: defineProperty(navigator, 'mediaDevices', ...) *)
| WrapGetUserMedia.     (* lines 112-122: getUserMedia upgraded to audio + video *)

(** [RecordingConfig], lines 6-22. *)
Record RecorderOptions : Type := {
  followNewTab : bool;
  fps : Z;
  ffmpeg_Path : option string;
  videoFrame : Z * Z;
  videoCrf : Z;
  videoCodec : string;
  videoPreset : string;
  videoBitrate : Z;
  autopad : string;
  aspectRatio : string
}.

Definition RecordingConfig : RecorderOptions := {|
  followNewTab := true;
  fps := 25;
  ffmpeg_Path := None;
  videoFrame := (1920, 1080);
  videoCrf := 18;
  videoCodec := "libx264";
  videoPreset := "ultrafast";
  videoBitrate := 1000;
  autopad := "black";
  aspectRatio := "16:9"
|}.

(** Collaborator operations of which the program sees only whether they
    threw.  For [process.cwd()] that is the throw alone: what it answers
    when it returns is [process_cwd] of the world. *)
Inductive Op : Type :=
| ProcessCwd                                    (* process.cwd(), as far as it throws *)
| MkdirSync (dir : string)                      (* fs.mkdirSync(dir, {recursive: true}) *)
| Launch (headless : bool) (args : list string) (* puppeteer.launch *)
| NewPage                                       (* browser.newPage *)
| Evaluate (s : Script)                         (* page.evaluate *)
| SetExtraHTTPHeaders (name value : string)     (* page.setExtraHTTPHeaders *)
| RequireRecorder                               (* require('puppeteer-screen-recorder') *)
| NewRecorder (cfg : RecorderOptions)           (* new PuppeteerScreenRecorder(page, cfg) *)
| Goto (url waitUntil : string) (timeout : Z)   (* page.goto *)
| SetViewport (width height : Z)                (* page.setViewport *)
| ElemClick (h : Handle) (clickCount : nat)     (* element.click *)
| ElemType (h : Handle) (text : string)         (* element.type *)
| RecorderStart (path : string)                 (* recorder.start *)
| WaitForTimeout (ms : Z)                       (* page.waitForTimeout *)
| RecorderStop                                  (* recorder.stop *)
| BrowserClose.                                 (* browser.close *)
Arguments ElemClick h%_nat clickCount%_nat.
Arguments ElemType h%_nat text%_string.

(** The answer of a collaborator that returns a value. *)
Inductive Outcome (A : Type) : Type :=
| Returned (a : A)
| Failed (reason : string).
Arguments Returned {A} a.
Arguments Failed {A} reason.

(** An argument of [console.log] / [console.error]. *)
Inductive Arg : Type :=
| AStr (s : string)
| AErr (e : Exn).

(** One entry of the trace.  [Did o None]: [o] was invoked and returned;
    [Did o (Some r)]: [o] was invoked and threw [r]. *)
Inductive Event : Type :=
| Did (o : Op) (r : option string)
| Queried (xpath : string) (r : Outcome (list Handle))   (* page.$x *)
| Now (t : Z)                                            (* Date.now() *)
| Cwd (dir : string)                                     (* process.cwd() *)
| ConsoleLog (msg : string)
| ConsoleError (args : list Arg).

(** The collaborators.  Every answer may depend on all that happened
    before.  [page.$x] answers with the matches in document order;
    [process_cwd] is what [process.cwd()] answers when it does not throw
    (it throws when the working directory is gone). *)
Record World : Type := {
  respond : list Event -> Op -> option string;
  xquery : list Event -> string -> Outcome (list Handle);
  date_now : list Event -> Z;
  process_cwd : list Event -> string
}.

(** ** The monad *)

Inductive Completion (A : Type) : Type :=
| Normal (a : A)
| Throw (e : Exn).
Arguments Normal {A} a.
Arguments Throw {A} e.

(** A computation reads the world, the store [S] it may write (for a
    method: the fields of [this]) and the history so far, and gives its
    completion, the store it leaves and the events it added, oldest
    first. *)
Definition M (S A : Type) : Type :=
  World -> S -> list Event -> Completion A * S * list Event.

Definition completion {S A} (r : Completion A * S * list Event) : Completion A :=
  fst (fst r).
Definition store {S A} (r : Completion A * S * list Event) : S :=
  snd (fst r).
Definition events {S A} (r : Completion A * S * list Event) : list Event :=
  snd r.

Definition ret {S A} (a : A) : M S A :=
  fun _ s _ => (Normal a, s, []).

Definition throw {S A} (e : Exn) : M S A :=
  fun _ s _ => (Throw e, s, []).

Definition bind {S A B} (m : M S A) (f : A -> M S B) : M S B :=
  fun w s h =>
    let '(r, s1, ev1) := m w s h in
    match r with
    | Normal a =>
        let '(r2, s2, ev2) := f a w s1 (h ++ ev1) in
        (r2, s2, ev1 ++ ev2)
    | Throw e => (Throw e, s1, ev1)
    end.

Declare Scope js_scope.
Delimit Scope js_scope with js.
Notation "x <- m ;; k" := (bind m (fun x => k))
  (at level 100, m at next level, right associativity) : js_scope.
Notation "m ;; k" := (bind m (fun _ => k))
  (at level 100, right associativity) : js_scope.
Open Scope js_scope.

(** [try { body } catch (e) { handler e } finally { fin }].  The finally
    block runs whatever came before; when it throws, its error replaces the
    completion of the try / catch. *)
Definition try_catch_finally {S} (body : M S unit) (handler : Exn -> M S unit)
    (fin : M S unit) : M S unit :=
  fun w s h =>
    let '(r1, s1, ev1) := body w s h in
    let '(r2, s2, ev2) :=
      match r1 with
      | Normal _ => (Normal tt, s1, [])
      | Throw e => handler e w s1 (h ++ ev1)
      end in
    let '(r3, s3, ev3) := fin w s2 (h ++ ev1 ++ ev2) in
    (match r3 with Normal _ => r2 | Throw e => Throw e end,
     s3, ev1 ++ ev2 ++ ev3).

(** [try { body } catch (e) { handler e }], and [promise.catch(handler)]. *)
Definition try_catch {S} (body : M S unit) (handler : Exn -> M S unit) : M S unit :=
  try_catch_finally body handler (ret tt).

(** An operation of a collaborator, awaited. *)
Definition call {S} (o : Op) : M S unit :=
  fun w s h =>
    match respond w h o with
    | None => (Normal tt, s, [Did o None])
    | Some r => (Throw (Rejection r), s, [Did o (Some r)])
    end.

(** [await page.$x(xpath)]. *)
Definition page_x {S} (xpath : string) : M S (list Handle) :=
  fun w s h =>
    match xquery w h xpath with
    | Returned l => (Normal l, s, [Queried xpath (Returned l)])
    | Failed r => (Throw (Rejection r), s, [Queried xpath (Failed r)])
    end.

Definition Date_now {S} : M S Z :=
  fun w s h => (Normal (date_now w h), s, [Now (date_now w h)]).

(** [process.cwd()]. *)
Definition cwd {S} : M S string :=
  fun w s h =>
    match respond w h ProcessCwd with
    | None => (Normal (process_cwd w h), s, [Cwd (process_cwd w h)])
    | Some r => (Throw (Rejection r), s, [Did ProcessCwd (Some r)])
    end.

Definition console_log {S} (msg : string) : M S unit :=
  fun _ s _ => (Normal tt, s, [ConsoleLog msg]).

Definition console_error {S} (args : list Arg) : M S unit :=
  fun _ s _ => (Normal tt, s, [ConsoleError args]).

(** Reading [this]. *)
Definition this {S} : M S S :=
  fun _ s _ => (Normal s, s, []).

(** Running a method on an object from code that is not a method of it. *)
Definition invoke {S T A} (obj : T) (m : M T A) : M S A :=
  fun w s h => let '(r, _, ev) := m w obj h in (r, s, ev).

(** ** Paths and numbers (Node's [path] on POSIX, template literals) *)

(** [s.split('/')]. *)
Fixpoint split_slash (s : string) : list string :=
  match s with
  | EmptyString => [""]
  | String c rest =>
      if Ascii.eqb c "/" then "" :: split_slash rest
      else match split_slash rest with
           | seg :: segs => String c seg :: segs
           | [] => [String c ""]
           end
  end.

(** [segs.join('/')]. *)
Fixpoint join_slash (segs : list string) : string :=
  match segs with
  | [] => ""
  | [seg] => seg
  | seg :: rest => (seg ++ "/" ++ join_slash rest)%string
  end.

Fixpoint last_char (s : string) : option ascii :=
  match s with
  | EmptyString => None
  | String c EmptyString => Some c
  | String _ rest => last_char rest
  end.

Definition first_char (s : string) : option ascii :=
  match s with
  | EmptyString => None
  | String c _ => Some c
  end.

Definition is_slash (c : option ascii) : bool :=
  match c with
  | Some c => Ascii.eqb c "/"
  | None => false
  end.

(** [normalizeString] of Node's path module, segment by segment: [res] is
    the stack of segments kept so far, the last kept first.  Empty segments
    and "." are dropped; ".." removes the last kept segment unless there is
    none or it is ".." itself, in which case it is kept when
    [allowAboveRoot] and dropped otherwise. *)
Fixpoint normalizeString (allowAboveRoot : bool) (segs res : list string) : list string :=
  match segs with
  | [] => rev res
  | seg :: rest =>
      if String.eqb seg "" || String.eqb seg "." then
        normalizeString allowAboveRoot rest res
      else if String.eqb seg ".." then
        match res with
        | top :: below =>
            if String.eqb top ".." then
              normalizeString allowAboveRoot rest
                (if allowAboveRoot then ".." :: res else res)
            else normalizeString allowAboveRoot rest below
        | [] =>
            normalizeString allowAboveRoot rest
              (if allowAboveRoot then [".."] else [])
        end
      else normalizeString allowAboveRoot rest (seg :: res)
  end.

(** [path.normalize]. *)
Definition path_normalize (path : string) : string :=
  if String.eqb path "" then "."
  else
    let isAbsolute := is_slash (first_char path) in
    let trailingSeparator := is_slash (last_char path) in
    let path' := join_slash (normalizeString (negb isAbsolute) (split_slash path) []) in
    if String.eqb path' "" then
      if isAbsolute then "/" else if trailingSeparator then "./" else "."
    else
      let path'' := if trailingSeparator then (path' ++ "/")%string else path' in
      if isAbsolute then ("/" ++ path'')%string else path''.

(** [path.join(...args)]: the non-empty arguments joined by "/", then
    normalized. *)
Definition path_join (args : list string) : string :=
  let joined := join_slash (filter (fun a => negb (String.eqb a "")) args) in
  if String.eqb joined "" then "." else path_normalize joined.

(** How a template literal prints an integer such as [Date.now()]. *)
Definition number_to_string (t : Z) : string :=
  NilZero.string_of_int (Z.to_int t).

(** ** The class *)

Record GoogleMeetRecorder : Type := {
  meetUrl : string;
  recordingDuration : Z;
  videoOutputPath : string
}.

(** A parameter with a default: [undefined] is [None]. *)
Definition default_to {A} (d : A) (a : option A) : A :=
  match a with
  | Some a => a
  | None => d
  end.

(** Lines 29-40.  The default of [videoDir] is evaluated only when the
    argument is missing. *)
Definition constructor {S} (meetUrl : string) (recordingDuration : option Z)
    (videoDir : option string) : M S GoogleMeetRecorder :=
  let recordingDuration := default_to 30000 recordingDuration in
  videoDir <- match videoDir with
              | Some d => ret d
              | None => c <- cwd ;; ret (path_join [c; "report"; "video"])
              end ;;
  call (MkdirSync videoDir) ;;
  t <- Date_now ;;
  ret {| meetUrl := meetUrl;
         recordingDuration := recordingDuration;
         videoOutputPath :=
           path_join [videoDir;
                      ("meet_recording_" ++ number_to_string t ++ ".mp4")%string] |}.

(** Lines 42-45. *)
Definition findElementByXPath (xpath : string) : M GoogleMeetRecorder (option Handle) :=
  elements <- page_x xpath ;;
  ret (match elements with
       | e :: _ => Some e
       | [] => None
       end).

(** Lines 47-54.  [null] is the only falsy value an element can be. *)
Definition typeInElement (element : option Handle) (text : string)
  : M GoogleMeetRecorder unit :=
  match element with
  | Some el =>
      call (ElemClick el 3) ;;
      call (ElemType el text)
  | None => throw (Error "Element not found for typing")
  end.

(** Lines 56-62. *)
Definition clickElement (element : option Handle) : M GoogleMeetRecorder unit :=
  match element with
  | Some el => call (ElemClick el 1)
  | None => throw (Error "Element not found for clicking")
  end.

Definition launch_args : list string :=
  [ "--use-fake-ui-for-media-stream";
    "--disable-blink-features=AutomationControlled";
    "--start-fullscreen";
    "--disable-features=EnableEphemeralFlashPermission";
    "--disable-web-security";
    "--allow-file-access-from-files";
    "--allow-running-insecure-content";
    "--unsafely-treat-insecure-origin-as-secure" ].

(** The double quote, which the queries below contain. *)
Definition dq : string := String "034"%char "".

Definition xpath_continue : string :=
  "//span[contains(text(), " ++ dq ++ "Continue without microphone and camera" ++ dq ++ ")]".
Definition xpath_name : string :=
  "//input[@placeholder=" ++ dq ++ "Your name" ++ dq ++ "]".
Definition xpath_join : string :=
  "//span[contains(text(), " ++ dq ++ "Ask to join" ++ dq ++ ")]".

(** Lines 100-153, the body of the try block. *)
Definition startRecording_try : M GoogleMeetRecorder unit :=
  call RequireRecorder ;;
  call (NewRecorder RecordingConfig) ;;
  self <- this ;;
  call (Goto (meetUrl self) "networkidle0" 60000) ;;
  call (Evaluate WrapGetUserMedia) ;;
  call (SetViewport 1920 1080) ;;
  continueButton <- findElementByXPath xpath_continue ;;
  match continueButton with
  | Some _ => clickElement continueButton
  | None => ret tt
  end ;;
  nameInput <- findElementByXPath xpath_name ;;
  match nameInput with
  | Some _ => typeInElement nameInput "Meeting Bot"
  | None => ret tt
  end ;;
  joinButton <- findElementByXPath xpath_join ;;
  match joinButton with
  | Some _ => clickElement joinButton
  | None => ret tt
  end ;;
  self <- this ;;
  call (RecorderStart (videoOutputPath self)) ;;
  self <- this ;;
  console_log ("🎥 Recording started - saving to " ++ videoOutputPath self) ;;
  self <- this ;;
  call (WaitForTimeout (recordingDuration self)) ;;
  console_log "⏹️ Stopping recording..." ;;
  call RecorderStop ;;
  console_log "✅ Recording saved successfully!".

(** Lines 64-161. *)
Definition startRecording : M GoogleMeetRecorder unit :=
  call (Launch false launch_args) ;;
  call NewPage ;;
  call (Evaluate StubMediaDevices) ;;
  call (SetExtraHTTPHeaders "Accept-Language" "en-US,en;q=0.9") ;;
  try_catch_finally
    startRecording_try
    (fun error =>
       console_error [AStr "Error occurred during meet recording:"; AErr error])
    (call BrowserClose).

(** Lines 165-176. *)
Definition main : M unit unit :=
  meetRecorder <- constructor "https://meet.google.com/emr-eqin-uak" (Some 30000) None ;;
  try_catch
    (invoke meetRecorder startRecording)
    (fun error => console_error [AStr "Meet recording failed:"; AErr error]).

(** Lines 179-181: [main().catch(console.error)] when the file is the
    program that was started, nothing when it is imported. *)
Definition entry (is_main : bool) : M unit unit :=
  if is_main then try_catch main (fun e => console_error [AErr e])
  else ret tt.

(** ** Observations on traces *)

Definition is_stop (e : Event) : bool :=
  match e with
  | Did RecorderStop _ => true
  | _ => false
  end.

Definition is_close (e : Event) : bool :=
  match e with
  | Did BrowserClose _ => true
  | _ => false
  end.

Definition count (p : Event -> bool) (evs : list Event) : nat :=
  List.length (filter p evs).

(** The operations [startRecording] invokes between [try {] and [} catch]. *)
Definition in_try (o : Op) : bool :=
  match o with
  | RequireRecorder | NewRecorder _ | Goto _ _ _ | Evaluate WrapGetUserMedia
  | SetViewport _ _ | ElemClick _ _ | ElemType _ _ | RecorderStart _
  | WaitForTimeout _ | RecorderStop => true
  | _ => false
  end.

(** What the catch block of [startRecording] prints for [e]. *)
Definition recording_error_report (e : Exn) : Event :=
  ConsoleError [AStr "Error occurred during meet recording:"; AErr e].

(** [e2] is the event right after [e1]. *)
Definition follows (e1 e2 : Event) (evs : list Event) : Prop :=
  exists before after, evs = before ++ e1 :: e2 :: after.

(** The catch block of [startRecording] printed [e], the browser was closed
    after it, and unless that close threw the caller sees a normal
    return. *)
Definition caught_and_logged (run : Completion unit * GoogleMeetRecorder * list Event)
    (e : Exn) : Prop :=
  In (recording_error_report e) (events run) /\
  count is_close (events run) = 1%nat /\
  (In (Did BrowserClose None) (events run) -> completion run = Normal tt).

(** [m] leaves the store as it found it. *)
Definition preserves_store {S A} (m : M S A) : Prop :=
  forall w s h, store (m w s h) = s.

(** [m] neither throws nor prints an error this program made itself. *)
Definition own_error_free {S A} (m : M S A) : Prop :=
  forall w s h,
    (forall msg, completion (m w s h) <> Throw (Error msg)) /\
    (forall args msg,
       In (ConsoleError args) (events (m w s h)) -> ~ In (AErr (Error msg)) args).

(** ** Observations on paths *)

Fixpoint no_slash (s : string) : bool :=
  match s with
  | EmptyString => true
  | String c rest => negb (Ascii.eqb c "/") && no_slash rest
  end.

(** A segment that normalization keeps as it is. *)
Definition ordinary (seg : string) : Prop :=
  no_slash seg = true /\ seg <> "" /\ seg <> "." /\ seg <> "..".

(** What follows the last "/" of a path. *)
Definition basename (p : string) : string := last (split_slash p) "".

Definition root (absolute : bool) : string := if absolute then "/" else "".

(** A path in normal form that names something below its root: segments
    that are kept, joined by "/", after "/" or nothing. *)
Definition clean_path (p : string) : Prop :=
  exists absolute segs,
    segs <> [] /\ Forall ordinary segs /\ p = (root absolute ++ join_slash segs)%string.

(** The file name the constructor makes for the timestamp [t]. *)
Definition recording_file (t : Z) : string :=
  ("meet_recording_" ++ number_to_string t ++ ".mp4")%string.

(** ** Worlds to run the program in *)

(** A world whose answers do not depend on the history. *)
Definition scripted (faults : Op -> option string)
    (dom : string -> Outcome (list Handle)) (clock : Z) (dir : string) : World :=
  {| respond := fun _ o => faults o;
     xquery := fun _ q => dom q;
     date_now := fun _ => clock;
     process_cwd := fun _ => dir |}.

Definition no_fault (o : Op) : option string := None.

(** The three prompts are on the page, as elements 1, 2 and 3. *)
Definition dom_all (q : string) : Outcome (list Handle) :=
  if String.eqb q xpath_continue then Returned [1%nat]
  else if String.eqb q xpath_name then Returned [2%nat; 7%nat]
  else if String.eqb q xpath_join then Returned [3%nat]
  else Returned [].

(** The microphone prompt is missing, the other two are there. *)
Definition dom_granted (q : string) : Outcome (list Handle) :=
  if String.eqb q xpath_continue then Returned []
  else dom_all q.

Definition job0 : GoogleMeetRecorder :=
  {| meetUrl := "https://meet.google.com/emr-eqin-uak";
     recordingDuration := 30000;
     videoOutputPath := "/srv/report/video/meet_recording_1730000000000.mp4" |}.

Definition world_ok : World := scripted no_fault dom_all 1730000000000 "/srv".

Definition world_granted : World := scripted no_fault dom_granted 1730000000000 "/srv".

(** The first [page.evaluate], before the try block, is rejected. *)
Definition world_stub_fails : World :=
  scripted (fun o => match o with
                     | Evaluate StubMediaDevices => Some "Execution context was destroyed"
                     | _ => None
                     end) dom_all 1730000000000 "/srv".

(** Navigation runs into its 60 s ceiling. *)
Definition world_goto_fails : World :=
  scripted (fun o => match o with
                     | Goto _ _ _ => Some "Navigation timeout of 60000 ms exceeded"
                     | _ => None
                     end) dom_all 1730000000000 "/srv".

(** The recorder cannot start. *)
Definition world_start_fails : World :=
  scripted (fun o => match o with
                     | RecorderStart _ => Some "ffmpeg not found"
                     | _ => None
                     end) dom_all 1730000000000 "/srv".

(** The page goes away during the timed wait. *)
Definition world_wait_fails : World :=
  scripted (fun o => match o with
                     | WaitForTimeout _ => Some "Target closed"
                     | _ => None
                     end) dom_all 1730000000000 "/srv".

(** [recorder.stop] itself fails. *)
Definition world_stop_fails : World :=
  scripted (fun o => match o with
                     | RecorderStop => Some "stream already closed"
                     | _ => None
                     end) dom_all 1730000000000 "/srv".

(** The working directory has been removed. *)
Definition world_cwd_fails : World :=
  scripted (fun o => match o with
                     | ProcessCwd => Some "ENOENT: no such file or directory, uv_cwd"
                     | _ => None
                     end) dom_all 1730000000000 "/srv".

(** The video directory cannot be created. *)
Definition world_mkdir_fails : World :=
  scripted (fun o => match o with
                     | MkdirSync _ => Some "EACCES: permission denied"
                     | _ => None
                     end) dom_all 1730000000000 "/srv".

(** The world of [world_ok] with a clock that moves with the history. *)
Definition world_ticking : World :=
  {| respond := fun _ _ => None;
     xquery := fun _ q => dom_all q;
     date_now := fun h => 1730000000000 + Z.of_nat (List.length h);
     process_cwd := fun _ => "/srv" |}.

(** ** Further observations on traces *)

(** A collaborator threw. *)
Definition failed (e : Event) : bool :=
  match e with
  | Did _ (Some _) => true
  | Queried _ (Failed _) => true
  | _ => false
  end.

Definition all_returned (evs : list Event) : bool :=
  forallb (fun e => negb (failed e)) evs.

(** The last event of a trace. *)
Definition final (evs : list Event) : option Event :=
  last (map Some evs) None.

(** The events before the first one that satisfies [p]. *)
Fixpoint upto (p : Event -> bool) (evs : list Event) : list Event :=
  match evs with
  | [] => []
  | e :: rest => if p e then [] else e :: upto p rest
  end.

Definition is_launch (e : Event) : bool :=
  match e with
  | Did (Launch _ _) _ => true
  | _ => false
  end.

Definition is_goto (e : Event) : bool :=
  match e with
  | Did (Goto _ _ _) _ => true
  | _ => false
  end.

Definition is_start (e : Event) : bool :=
  match e with
  | Did (RecorderStart _) _ => true
  | _ => false
  end.

Definition is_wait (e : Event) : bool :=
  match e with
  | Did (WaitForTimeout _) _ => true
  | _ => false
  end.

(** The trace ends in [suffix], and nothing threw before it. *)
Definition ends_with (suffix evs : list Event) : Prop :=
  exists before, evs = before ++ suffix /\ all_returned before = true.

(** What a prompt step does on what its query found, when the click
    returns. *)
Definition clicked (found : list Handle) : list Event :=
  match found with
  | [] => []
  | el :: _ => [Did (ElemClick el 1) None]
  end.

(** What the name step does on what its query found, when the click and
    the typing return. *)
Definition typed (found : list Handle) : list Event :=
  match found with
  | [] => []
  | el :: _ => [Did (ElemClick el 3) None; Did (ElemType el "Meeting Bot") None]
  end.

(** A query or an action on an element threw. *)
Definition navigator_failed (e : Event) : bool :=
  match e with
  | Queried _ (Failed _) => true
  | Did (ElemClick _ _) (Some _) => true
  | Did (ElemType _ _) (Some _) => true
  | _ => false
  end.

(** [segment] is a run of consecutive events of the trace. *)
Definition occurs (segment evs : list Event) : Prop :=
  exists before after, evs = before ++ segment ++ after.

(** What line 153 prints. *)
Definition success_message : Event := ConsoleLog "✅ Recording saved successfully!".

(** The operations [startRecording] invokes before [try {] and in
    [finally]. *)
Definition around_try (o : Op) : bool :=
  match o with
  | Launch _ _ | NewPage | Evaluate StubMediaDevices | SetExtraHTTPHeaders _ _
  | BrowserClose => true
  | _ => false
  end.

(** What the catch block of [main] prints for [e]. *)
Definition main_error_report (e : Exn) : Event :=
  ConsoleError [AStr "Meet recording failed:"; AErr e].

(** * Properties *)

(** ** Reading a trace that is written out *)

Lemma xpath_continue_name : xpath_continue <> xpath_name.
Proof. intros H; vm_compute in H; discriminate H. Qed.

Lemma xpath_continue_join : xpath_continue <> xpath_join.
Proof. intros H; vm_compute in H; discriminate H. Qed.

Lemma xpath_name_join : xpath_name <> xpath_join.
Proof. intros H; vm_compute in H; discriminate H. Qed.

(** Where in a trace that is written out can a given event be? *)
Ltac absurd_event H :=
  first
    [ discriminate H
    | exfalso; injection H; intros;
      first [ apply xpath_continue_name | apply xpath_continue_join
            | apply xpath_name_join ];
      congruence ].

Ltac in_trace :=
  repeat match goal with
    | H : In _ (_ :: _) |- _ => destruct H as [H|H]; [try absurd_event H|]
    | H : In _ [] |- _ => destruct H
    end.

Lemma follows_here e1 e2 evs : follows e1 e2 (e1 :: e2 :: evs).
Proof. exists [], evs; reflexivity. Qed.

Lemma follows_later e e1 e2 evs : follows e1 e2 evs -> follows e1 e2 (e :: evs).
Proof. intros (b & a & ->). exists (e :: b), a; reflexivity. Qed.

Ltac find_follows := repeat first [ apply follows_here | apply follows_later ].

Ltac find_in := simpl; repeat first [ left; reflexivity | right ].

Lemma ends_here suffix : ends_with suffix suffix.
Proof. exists []; split; reflexivity. Qed.

Lemma ends_later e suffix evs :
  failed e = false -> ends_with suffix evs -> ends_with suffix (e :: evs).
Proof.
  intros He (before & -> & Hb). exists (e :: before); split; [reflexivity|].
  unfold all_returned in *. simpl. now rewrite He.
Qed.

Ltac find_end :=
  solve [repeat first [ apply ends_here | apply ends_later; [reflexivity|] ]].

Ltac find_in' := solve [find_in].

Lemma occurs_at segment evs :
  (exists after, evs = segment ++ after) -> occurs segment evs.
Proof. intros (after & ->). now exists [], after. Qed.

Lemma occurs_later e segment evs : occurs segment evs -> occurs segment (e :: evs).
Proof. intros (b & a & ->). now exists (e :: b), a. Qed.

Ltac find_occurs :=
  solve [repeat first [ apply occurs_at; eexists; cbn [app]; reflexivity
                      | apply occurs_later ]].

(** ** The program, run *)

Example join_ex1 : path_join ["/home/u"; "report"; "video"] = "/home/u/report/video".
Proof. reflexivity. Qed.
Example join_ex2 : path_join ["a//b/../c/"; "f.mp4"] = "a/c/f.mp4".
Proof. reflexivity. Qed.
Example join_ex3 : path_join [""; "f.mp4"] = "f.mp4".
Proof. reflexivity. Qed.
Example join_ex4 : path_join ["../.."; "f.mp4"] = "../../f.mp4".
Proof. reflexivity. Qed.
Example join_ex5 : path_join ["/.."; ".."] = "/".
Proof. reflexivity. Qed.
Example num_ex : number_to_string 1730000000000 = "1730000000000".
Proof. reflexivity. Qed.
Example num_ex0 : number_to_string 0 = "0" /\ number_to_string (-12) = "-12".
Proof. split; reflexivity. Qed.


(** Scenario A of the specification, run. *)
Example scenario_A :
  startRecording world_ok job0 [] =
  (Normal tt, job0,
   [ Did (Launch false launch_args) None;
     Did NewPage None;
     Did (Evaluate StubMediaDevices) None;
     Did (SetExtraHTTPHeaders "Accept-Language" "en-US,en;q=0.9") None;
     Did RequireRecorder None;
     Did (NewRecorder RecordingConfig) None;
     Did (Goto "https://meet.google.com/emr-eqin-uak" "networkidle0" 60000) None;
     Did (Evaluate WrapGetUserMedia) None;
     Did (SetViewport 1920 1080) None;
     Queried xpath_continue (Returned [1%nat]);
     Did (ElemClick 1 1) None;
     Queried xpath_name (Returned [2%nat; 7%nat]);
     Did (ElemClick 2 3) None;
     Did (ElemType 2 "Meeting Bot") None;
     Queried xpath_join (Returned [3%nat]);
     Did (ElemClick 3 1) None;
     Did (RecorderStart "/srv/report/video/meet_recording_1730000000000.mp4") None;
     ConsoleLog "🎥 Recording started - saving to /srv/report/video/meet_recording_1730000000000.mp4";
     Did (WaitForTimeout 30000) None;
     ConsoleLog "⏹️ Stopping recording...";
     Did RecorderStop None;
     ConsoleLog "✅ Recording saved successfully!";
     Did BrowserClose None ]).
Proof. vm_compute. reflexivity. Qed.

Example constructor_run :
  constructor (S := unit) "https://meet.google.com/emr-eqin-uak" None None world_ok tt [] =
  (Normal (Build_GoogleMeetRecorder "https://meet.google.com/emr-eqin-uak" 30000 "/srv/report/video/meet_recording_1730000000000.mp4"), tt,
   [Cwd "/srv"; Did (MkdirSync "/srv/report/video") None; Now 1730000000000]).
Proof. vm_compute. reflexivity. Qed.

(** ** Paths *)

Section Strings.
Local Open Scope string_scope.

Lemma append_assoc (a b c : string) : (a ++ b) ++ c = a ++ (b ++ c).
Proof. induction a as [|x a IH]; simpl; [reflexivity|now rewrite IH]. Qed.

Lemma append_nil_r (a : string) : a ++ "" = a.
Proof. induction a as [|x a IH]; simpl; [reflexivity|now rewrite IH]. Qed.

Lemma length_append (a b : string) :
  String.length (a ++ b) = (String.length a + String.length b)%nat.
Proof. induction a as [|x a IH]; simpl; [reflexivity|now rewrite IH]. Qed.

Lemma append_inv_tail (a b c : string) : a ++ c = b ++ c -> a = b.
Proof.
  revert b; induction a as [|x a IH]; intros [|y b] H; simpl in H.
  - reflexivity.
  - apply (f_equal String.length) in H. simpl in H. rewrite length_append in H. lia.
  - apply (f_equal String.length) in H. simpl in H. rewrite length_append in H. lia.
  - injection H as -> H. f_equal. now apply IH.
Qed.

Lemma append_nonempty (a b : string) : b <> "" -> a ++ b <> "".
Proof. destruct a; simpl; [auto|discriminate]. Qed.

Lemma eqb_empty_false (s : string) : s <> "" -> String.eqb s "" = false.
Proof. intros H. now apply String.eqb_neq. Qed.

Lemma no_slash_app (a b : string) : no_slash (a ++ b) = no_slash a && no_slash b.
Proof.
  induction a as [|x a IH]; simpl; [reflexivity|].
  rewrite IH. now rewrite andb_assoc.
Qed.

Lemma first_char_app (a b : string) : a <> "" -> first_char (a ++ b) = first_char a.
Proof. destruct a; [congruence|reflexivity]. Qed.

Lemma last_char_app (a b : string) : b <> "" -> last_char (a ++ b) = last_char b.
Proof.
  intros Hb. induction a as [|x a IH]; simpl; [reflexivity|].
  destruct (a ++ b) eqn:E; [|exact IH].
  exfalso. revert E. now apply append_nonempty.
Qed.

Lemma no_slash_first (s : string) : no_slash s = true -> is_slash (first_char s) = false.
Proof.
  destruct s as [|c s]; simpl; [reflexivity|].
  intros H. apply andb_prop in H. destruct H as [H _].
  now apply negb_true_iff in H.
Qed.

Lemma no_slash_last (s : string) : no_slash s = true -> is_slash (last_char s) = false.
Proof.
  induction s as [|c s IH]; simpl; [reflexivity|].
  intros H. apply andb_prop in H. destruct H as [Hc Hs].
  destruct s; [simpl; now apply negb_true_iff in Hc|now apply IH].
Qed.

Lemma split_slash_nonempty (s : string) : split_slash s <> [].
Proof.
  induction s as [|c s IH]; simpl; [discriminate|].
  destruct (Ascii.eqb c "/"); [discriminate|].
  destruct (split_slash s); discriminate.
Qed.

Lemma split_no_slash (s : string) : no_slash s = true -> split_slash s = [s].
Proof.
  induction s as [|c s IH]; simpl; [reflexivity|].
  intros H. apply andb_prop in H. destruct H as [Hc Hs].
  apply negb_true_iff in Hc. rewrite Hc, (IH Hs). reflexivity.
Qed.

Lemma split_slash_app (a b : string) :
  split_slash (a ++ "/" ++ b) = (split_slash a ++ split_slash b)%list.
Proof.
  induction a as [|c a IH]; simpl; [reflexivity|].
  destruct (Ascii.eqb c "/").
  - simpl in IH. rewrite IH. reflexivity.
  - simpl in IH. rewrite IH.
    destruct (split_slash a) as [|seg segs] eqn:E; [|reflexivity].
    now apply split_slash_nonempty in E.
Qed.

Lemma basename_file (f : string) : no_slash f = true -> basename f = f.
Proof. intros H. unfold basename. now rewrite split_no_slash. Qed.

Lemma basename_app (p f : string) : no_slash f = true -> basename (p ++ "/" ++ f) = f.
Proof.
  intros H. unfold basename.
  rewrite split_slash_app, (split_no_slash f H). apply last_last.
Qed.

Lemma join_slash_cons (seg : string) (segs : list string) :
  segs <> [] -> join_slash (seg :: segs) = seg ++ "/" ++ join_slash segs.
Proof. destruct segs; [congruence|reflexivity]. Qed.

Lemma join_slash_app (xs ys : list string) :
  xs <> [] -> ys <> [] ->
  join_slash (xs ++ ys) = join_slash xs ++ "/" ++ join_slash ys.
Proof.
  intros Hx Hy. induction xs as [|x xs IH]; [congruence|].
  destruct xs as [|x' xs].
  - simpl app. now rewrite join_slash_cons.
  - change ((x :: x' :: xs) ++ ys)%list with (x :: ((x' :: xs) ++ ys))%list.
    rewrite join_slash_cons by discriminate.
    rewrite IH by discriminate.
    rewrite (join_slash_cons x (x' :: xs)) by discriminate.
    now rewrite !append_assoc.
Qed.

Lemma join_slash_nonempty (segs : list string) (f : string) :
  f <> "" -> join_slash (segs ++ [f]) <> "".
Proof.
  intros Hf. destruct segs as [|x xs]; [exact Hf|].
  rewrite join_slash_app by discriminate.
  apply append_nonempty. discriminate.
Qed.
End Strings.

Section Normalization.
Local Open Scope string_scope.

Lemma ordinary_kept (seg : string) :
  ordinary seg ->
  String.eqb seg "" || String.eqb seg "." = false /\ String.eqb seg ".." = false.
Proof.
  intros (_ & H0 & H1 & H2).
  apply String.eqb_neq in H0, H1, H2. rewrite H0, H1, H2. split; reflexivity.
Qed.

Lemma ordinary_nonempty (seg : string) : ordinary seg -> seg <> "".
Proof. intros (_ & H & _). exact H. Qed.

Lemma ordinary_no_slash (seg : string) : ordinary seg -> no_slash seg = true.
Proof. intros (H & _). exact H. Qed.

(** A kept segment at the end of the input ends the output. *)
Lemma normalizeString_snoc allow (segs : list string) (f : string) :
  ordinary f ->
  forall res,
    normalizeString allow (segs ++ [f]) res
    = (normalizeString allow segs res ++ [f])%list.
Proof.
  intros Hf. destruct (ordinary_kept f Hf) as [H1 H2].
  induction segs as [|seg segs IH]; intros res; simpl.
  - rewrite H1, H2. reflexivity.
  - destruct (String.eqb seg "" || String.eqb seg "."); [apply IH|].
    destruct (String.eqb seg ".."); [|apply IH].
    destruct res as [|top below]; [apply IH|].
    destruct (String.eqb top ".."); apply IH.
Qed.

(** Kept segments pass through. *)
Lemma normalizeString_clean allow (segs : list string) :
  Forall ordinary segs ->
  forall res, normalizeString allow segs res = (rev res ++ segs)%list.
Proof.
  induction 1 as [|seg segs Hseg _ IH]; intros res; simpl.
  - now rewrite app_nil_r.
  - destruct (ordinary_kept seg Hseg) as [-> ->].
    rewrite IH. simpl. now rewrite <- app_assoc.
Qed.

Lemma split_join_slash (segs : list string) :
  segs <> [] -> Forall ordinary segs -> split_slash (join_slash segs) = segs.
Proof.
  intros Hne Hall. induction Hall as [|seg segs Hseg Hall IH]; [congruence|].
  destruct segs as [|seg' segs].
  - simpl. apply split_no_slash, ordinary_no_slash, Hseg.
  - rewrite join_slash_cons by discriminate.
    rewrite split_slash_app, IH by discriminate.
    rewrite split_no_slash by apply ordinary_no_slash, Hseg. reflexivity.
Qed.

Lemma join_slash_first (segs : list string) :
  segs <> [] -> Forall ordinary segs ->
  join_slash segs <> "" /\
  is_slash (first_char (join_slash segs)) = false /\
  is_slash (last_char (join_slash segs)) = false.
Proof.
  intros Hne Hall. induction Hall as [|seg segs Hseg Hall IH]; [congruence|].
  destruct segs as [|seg' segs].
  - simpl. split; [apply ordinary_nonempty, Hseg|split].
    + apply no_slash_first, ordinary_no_slash, Hseg.
    + apply no_slash_last, ordinary_no_slash, Hseg.
  - destruct IH as (Hn & _ & Hl); [discriminate|].
    rewrite join_slash_cons by discriminate.
    assert (Hseg' := ordinary_nonempty _ Hseg).
    split; [|split].
    + destruct seg; [congruence|discriminate].
    + rewrite first_char_app by exact Hseg'.
      apply no_slash_first, ordinary_no_slash, Hseg.
    + rewrite last_char_app by (apply append_nonempty; exact Hn).
      rewrite last_char_app by exact Hn. exact Hl.
Qed.

(** [path.normalize] leaves a clean path as it is. *)
Lemma path_normalize_clean absolute (segs : list string) :
  segs <> [] -> Forall ordinary segs ->
  path_normalize (root absolute ++ join_slash segs) = root absolute ++ join_slash segs.
Proof.
  intros Hne Hall.
  destruct (join_slash_first segs Hne Hall) as (Hn & Hf & Hl).
  unfold path_normalize.
  rewrite eqb_empty_false by (apply append_nonempty; exact Hn).
  rewrite last_char_app by exact Hn. rewrite Hl.
  destruct absolute; simpl root.
  - change ("/" ++ join_slash segs) with ("" ++ "/" ++ join_slash segs).
    rewrite split_slash_app, split_join_slash by assumption.
    simpl. rewrite normalizeString_clean by assumption. simpl.
    rewrite eqb_empty_false by exact Hn. reflexivity.
  - simpl append. rewrite Hf. simpl negb.
    rewrite split_join_slash, normalizeString_clean by assumption. simpl.
    rewrite eqb_empty_false by exact Hn. reflexivity.
Qed.

Lemma clean_path_nonempty (p : string) : clean_path p -> p <> "".
Proof.
  intros (absolute & segs & Hne & Hall & ->).
  apply append_nonempty. apply (join_slash_first segs Hne Hall).
Qed.

(** Joining clean paths and kept segments puts a "/" between them. *)
Lemma path_join_clean (dir : string) (more : list string) :
  clean_path dir -> more <> [] -> Forall ordinary more ->
  path_join (dir :: more) = dir ++ "/" ++ join_slash more /\
  clean_path (dir ++ "/" ++ join_slash more).
Proof.
  intros Hdir Hne Hall.
  assert (Hd := clean_path_nonempty dir Hdir).
  destruct Hdir as (absolute & segs & Hsne & Hsall & ->).
  assert (Hjoin : root absolute ++ join_slash (segs ++ more)
                  = (root absolute ++ join_slash segs) ++ "/" ++ join_slash more).
  { rewrite join_slash_app by assumption. now rewrite append_assoc. }
  assert (Hall' : Forall ordinary (segs ++ more)) by (apply Forall_app; now split).
  assert (Hne' : (segs ++ more)%list <> []).
  { destruct segs; [congruence|discriminate]. }
  split.
  - unfold path_join.
    assert (Hfilter : filter (fun a => negb (String.eqb a "")) more = more).
    { clear Hne Hjoin Hall' Hne'. induction Hall as [|m more Hm _ IH]; [reflexivity|].
      simpl. rewrite eqb_empty_false by (apply ordinary_nonempty, Hm).
      simpl. now rewrite IH. }
    simpl filter. rewrite (eqb_empty_false _ Hd). simpl negb. cbv iota.
    rewrite Hfilter, join_slash_cons by exact Hne.
    rewrite <- Hjoin.
    rewrite eqb_empty_false
      by (apply append_nonempty; apply (join_slash_first _ Hne' Hall')).
    now apply path_normalize_clean.
  - exists absolute, (segs ++ more)%list.
    split; [exact Hne'|split; [exact Hall'|symmetry; exact Hjoin]].
Qed.
End Normalization.

Section FileNames.
Local Open Scope string_scope.

(** Whatever the directory, the joined path ends in the file name, after
    a "/" or alone. *)
Lemma path_join_basename (dir f : string) :
  ordinary f -> basename (path_join [dir; f]) = f.
Proof.
  intros Hf.
  assert (Hns := ordinary_no_slash f Hf).
  assert (Hne := ordinary_nonempty f Hf).
  assert (Hlast : forall a, is_slash (last_char (a ++ f)) = false).
  { intros a. rewrite last_char_app by exact Hne. now apply no_slash_last. }
  assert (Hout : forall absolute xs,
             basename (root absolute ++ join_slash (xs ++ [f])) = f).
  { intros absolute xs. destruct xs as [|x xs].
    - destruct absolute; simpl.
      + apply (basename_app "" f Hns).
      + now apply basename_file.
    - rewrite join_slash_app by discriminate. simpl (join_slash [f]).
      rewrite <- append_assoc. now apply basename_app. }
  unfold path_join. simpl filter.
  rewrite (eqb_empty_false f Hne). simpl negb. cbv iota.
  destruct (String.eqb_spec dir "") as [->|Hdir]; simpl negb; cbv iota.
  - simpl join_slash. rewrite (eqb_empty_false f Hne).
    unfold path_normalize. rewrite (eqb_empty_false f Hne).
    rewrite (no_slash_first f Hns). simpl negb.
    rewrite (split_no_slash f Hns).
    destruct (ordinary_kept f Hf) as [K1 K2].
    simpl normalizeString. rewrite K1, K2.
    simpl rev. simpl join_slash. rewrite (eqb_empty_false f Hne).
    rewrite (no_slash_last f Hns). now apply basename_file.
  - rewrite join_slash_cons by discriminate. simpl (join_slash [f]).
    rewrite eqb_empty_false by (apply append_nonempty; discriminate).
    unfold path_normalize.
    rewrite eqb_empty_false by (apply append_nonempty; discriminate).
    rewrite split_slash_app, (split_no_slash f Hns).
    rewrite normalizeString_snoc by exact Hf.
    rewrite (eqb_empty_false _ (join_slash_nonempty _ f Hne)).
    replace (dir ++ "/" ++ f) with ((dir ++ "/") ++ f) by apply append_assoc.
    rewrite Hlast.
    destruct (is_slash (first_char ((dir ++ "/") ++ f))).
    + apply (Hout true).
    + apply (Hout false).
Qed.

Lemma no_slash_digits (d : Decimal.uint) : no_slash (NilEmpty.string_of_uint d) = true.
Proof. induction d; simpl; auto. Qed.

Lemma no_slash_number (t : Z) : no_slash (number_to_string t) = true.
Proof.
  unfold number_to_string, NilZero.string_of_int, NilZero.string_of_uint.
  destruct (Z.to_int t) as [d|d]; destruct d; simpl; auto using no_slash_digits.
Qed.

Lemma number_to_string_inj (a b : Z) : number_to_string a = number_to_string b -> a = b.
Proof.
  unfold number_to_string. intros H.
  assert (Hnil : forall t, Z.to_int t <> Decimal.Pos Decimal.Nil
                           /\ Z.to_int t <> Decimal.Neg Decimal.Nil).
  { intros [|p|p]; simpl; split; try discriminate;
      intros [= E]; now apply DecimalPos.Unsigned.to_uint_nonnil in E. }
  apply to_int_inj.
  apply (f_equal NilZero.int_of_string) in H.
  rewrite !NilZero.isi in H by apply Hnil.
  now injection H.
Qed.

Lemma recording_file_ordinary (t : Z) : ordinary (recording_file t).
Proof.
  unfold ordinary, recording_file. repeat split; try discriminate.
  rewrite !no_slash_app, no_slash_number. reflexivity.
Qed.

Lemma recording_file_inj (a b : Z) : recording_file a = recording_file b -> a = b.
Proof.
  unfold recording_file. intros H.
  apply number_to_string_inj.
  simpl in H. injection H as H. now apply append_inv_tail in H.
Qed.
End FileNames.

(** ** The constructor *)

Lemma constructor_normal S w (s : S) h url duration videoDir job s' evs :
  constructor url duration videoDir w s h = (Normal job, s', evs) ->
  exists dir t,
    dir = default_to (path_join [process_cwd w h; "report"; "video"]) videoDir /\
    In (Did (MkdirSync dir) None) evs /\
    In (Now t) evs /\
    (forall t', In (Now t') evs -> t' = t) /\
    job = {| meetUrl := url;
             recordingDuration := default_to 30000 duration;
             videoOutputPath := path_join [dir; recording_file t] |}.
Proof.
  unfold constructor, bind, ret, cwd, call, Date_now.
  destruct videoDir as [d|]; simpl default_to; cbn [app].
  - destruct (respond w (h ++ []) (MkdirSync d)); [discriminate|].
    intros [= <- <- <-].
    eexists; eexists; split; [reflexivity|split; [|split; [|split]]];
      [find_in|find_in| |reflexivity].
    intros t' Hin. in_trace. now injection Hin.
  - destruct (respond w h ProcessCwd); [discriminate|]. cbn [app].
    destruct (respond w (h ++ [Cwd (process_cwd w h)])
                (MkdirSync (path_join [process_cwd w h; "report"; "video"])));
      [discriminate|].
    intros [= <- <- <-].
    eexists; eexists; split; [reflexivity|split; [|split; [|split]]];
      [find_in|find_in| |reflexivity].
    intros t' Hin. in_trace. now injection Hin.
Qed.

(** C8.  A job that was constructed has the URL it was given, the duration
    it was given or 30000, and as output path the join of its directory
    (the one given, or [report/video] under the working directory) with
    [meet_recording_<t>.mp4], [t] being the one reading of the clock the
    constructor made: the path ends in that file name, and is the directory,
    a "/" and the file name when the directory is a clean path.  Two jobs
    whose timestamps differ by one or more have different output paths. *)
Theorem output_path_from_timestamp S w (s1 s2 s1' s2' : S) h1 h2
    url1 url2 duration1 duration2 videoDir1 videoDir2 job1 job2 evs1 evs2 :
  constructor url1 duration1 videoDir1 w s1 h1 = (Normal job1, s1', evs1) ->
  constructor url2 duration2 videoDir2 w s2 h2 = (Normal job2, s2', evs2) ->
  exists dir t1 t2,
    In (Now t1) evs1 /\ In (Now t2) evs2 /\
    dir = default_to (path_join [process_cwd w h1; "report"; "video"]) videoDir1 /\
    In (Did (MkdirSync dir) None) evs1 /\
    meetUrl job1 = url1 /\
    recordingDuration job1 = default_to 30000 duration1 /\
    videoOutputPath job1
      = path_join [dir; ("meet_recording_" ++ number_to_string t1 ++ ".mp4")%string] /\
    basename (videoOutputPath job1)
      = ("meet_recording_" ++ number_to_string t1 ++ ".mp4")%string /\
    (clean_path dir ->
     videoOutputPath job1
       = (dir ++ "/" ++ "meet_recording_" ++ number_to_string t1 ++ ".mp4")%string) /\
    (videoDir1 = None -> clean_path (process_cwd w h1) ->
     dir = (process_cwd w h1 ++ "/report/video")%string /\ clean_path dir) /\
    (1 <= Z.abs (t1 - t2) -> videoOutputPath job1 <> videoOutputPath job2).
Proof.
  intros H1 H2.
  apply constructor_normal in H1, H2.
  destruct H1 as (dir & t1 & Hdir & Hmk & Ht1 & _ & ->).
  destruct H2 as (dir2 & t2 & _ & _ & Ht2 & _ & ->).
  exists dir, t1, t2. simpl.
  repeat (split; [assumption || reflexivity|]).
  fold (recording_file t1).
  split; [|split; [|split]].
  - apply path_join_basename, recording_file_ordinary.
  - intros Hclean.
    apply (path_join_clean dir [recording_file t1] Hclean); [discriminate|].
    constructor; [apply recording_file_ordinary|constructor].
  - intros -> Hcwd. simpl in Hdir. subst dir.
    destruct (path_join_clean _ ["report"; "video"]%string Hcwd) as [Hj Hc];
      [discriminate|repeat constructor; discriminate|].
    rewrite Hj. split; [reflexivity|exact Hc].
  - intros Hdiff Heq.
    apply (f_equal basename) in Heq.
    rewrite !path_join_basename in Heq by apply recording_file_ordinary.
    apply recording_file_inj in Heq. lia.
Qed.

Lemma output_path_from_timestamp_witness :
  exists job1 job2 evs1,
    constructor (S := unit) "https://meet.google.com/emr-eqin-uak" None None
      world_ticking tt [] = (Normal job1, tt, evs1) /\
    constructor (S := unit) "https://meet.google.com/abc-defg-hij" (Some 5000)
      (Some "out") world_ticking tt evs1
      = (Normal job2, tt, [Did (MkdirSync "out") None; Now 1730000000004]) /\
    videoOutputPath job1 = "/srv/report/video/meet_recording_1730000000002.mp4"%string /\
    videoOutputPath job1 <> videoOutputPath job2.
Proof.
  destruct (output_path_from_timestamp unit world_ticking tt tt tt tt
              [] [Cwd "/srv"; Did (MkdirSync "/srv/report/video") None; Now 1730000000002]
              "https://meet.google.com/emr-eqin-uak" "https://meet.google.com/abc-defg-hij"
              None (Some 5000) None (Some "out")
              {| meetUrl := "https://meet.google.com/emr-eqin-uak";
                 recordingDuration := 30000;
                 videoOutputPath := "/srv/report/video/meet_recording_1730000000002.mp4" |}
              {| meetUrl := "https://meet.google.com/abc-defg-hij";
                 recordingDuration := 5000;
                 videoOutputPath := "out/meet_recording_1730000000004.mp4" |}
              [Cwd "/srv"; Did (MkdirSync "/srv/report/video") None; Now 1730000000002]
              [Did (MkdirSync "out") None; Now 1730000000004])
    as (dir & t1 & t2 & Ht1 & Ht2 & _ & _ & _ & _ & _ & _ & _ & _ & Hdiff).
  - vm_compute. reflexivity.
  - vm_compute. reflexivity.
  - do 3 eexists. split; [vm_compute; reflexivity|].
    split; [vm_compute; reflexivity|].
    split; [reflexivity|].
    apply Hdiff.
    in_trace. injection Ht1 as <-. injection Ht2 as <-. vm_compute. discriminate.
Defined.

(** ** The element locator and the interaction primitives *)

Lemma findElementByXPath_run w job h xpath :
  findElementByXPath xpath w job h =
  match xquery w h xpath with
  | Returned matches =>
      (Normal (hd_error matches), job, [Queried xpath (Returned matches)])
  | Failed r => (Throw (Rejection r), job, [Queried xpath (Failed r)])
  end.
Proof.
  unfold findElementByXPath, bind, page_x, ret.
  destruct (xquery w h xpath) as [[|first rest]|r]; reflexivity.
Qed.

(** C5.  Whatever the page and the query, when [page.$x] answers with the
    list of matches (in document order), [findElementByXPath] completes
    normally: with [null] when the list is empty, with its first element
    otherwise.  It looks at the page once and changes nothing. *)
Theorem findElementByXPath_first_or_null w job h xpath matches :
  xquery w h xpath = Returned matches ->
  completion (findElementByXPath xpath w job h) =
    Normal (match matches with
            | [] => None
            | first :: _ => Some first
            end) /\
  events (findElementByXPath xpath w job h) = [Queried xpath (Returned matches)] /\
  store (findElementByXPath xpath w job h) = job.
Proof.
  intros Hq. rewrite findElementByXPath_run, Hq.
  destruct matches; repeat split.
Qed.

Lemma findElementByXPath_first_or_null_witness :
  (completion (findElementByXPath xpath_continue world_granted job0 []) = Normal None /\
   completion (findElementByXPath xpath_name world_ok job0 []) = Normal (Some 2%nat)).
Proof.
  split.
  - apply (findElementByXPath_first_or_null world_granted job0 [] xpath_continue []).
    reflexivity.
  - apply (findElementByXPath_first_or_null world_ok job0 [] xpath_name [2%nat; 7%nat]).
    reflexivity.
Defined.

Lemma clickElement_run w job h el :
  clickElement (Some el) w job h =
  match respond w h (ElemClick el 1) with
  | None => (Normal tt, job, [Did (ElemClick el 1) None])
  | Some r => (Throw (Rejection r), job, [Did (ElemClick el 1) (Some r)])
  end.
Proof. reflexivity. Qed.

Lemma typeInElement_run w job h el text :
  typeInElement (Some el) text w job h =
  match respond w h (ElemClick el 3) with
  | None =>
      match respond w (h ++ [Did (ElemClick el 3) None]) (ElemType el text) with
      | None =>
          (Normal tt, job, [Did (ElemClick el 3) None; Did (ElemType el text) None])
      | Some r =>
          (Throw (Rejection r), job,
           [Did (ElemClick el 3) None; Did (ElemType el text) (Some r)])
      end
  | Some r => (Throw (Rejection r), job, [Did (ElemClick el 3) (Some r)])
  end.
Proof.
  unfold typeInElement, bind, call.
  destruct (respond w h (ElemClick el 3)); [reflexivity|].
  destruct (respond w (h ++ [Did (ElemClick el 3) None]) (ElemType el text));
    reflexivity.
Qed.

(** C6.  [typeInElement] and [clickElement] throw their element-missing
    error exactly when the element is [null].  On an element they perform
    their action (a triple click, then the typing when the click returned;
    a single click) and throw nothing but what the element threw. *)
Theorem primitives_throw_missing_iff_null w job h element text :
  (completion (typeInElement element text w job h)
     = Throw (Error "Element not found for typing") <-> element = None) /\
  (completion (clickElement element w job h)
     = Throw (Error "Element not found for clicking") <-> element = None) /\
  (forall el, element = Some el ->
     (exists r, events (clickElement element w job h) = [Did (ElemClick el 1) r]) /\
     (exists r rest,
        events (typeInElement element text w job h) = Did (ElemClick el 3) r :: rest /\
        (r = None -> exists r', rest = [Did (ElemType el text) r'])) /\
     (forall msg, completion (clickElement element w job h) <> Throw (Error msg)) /\
     (forall msg, completion (typeInElement element text w job h) <> Throw (Error msg))).
Proof.
  destruct element as [el|].
  - rewrite clickElement_run, typeInElement_run.
    split; [|split].
    + split; [|discriminate].
      destruct (respond w h (ElemClick el 3));
        [|destruct (respond w (h ++ [Did (ElemClick el 3) None]) (ElemType el text))];
        discriminate.
    + split; [|discriminate].
      destruct (respond w h (ElemClick el 1)); discriminate.
    + intros el' Hel. injection Hel as <-.
      split; [|split; [|split]].
      * destruct (respond w h (ElemClick el 1)); eexists; reflexivity.
      * destruct (respond w h (ElemClick el 3)) as [r|].
        -- exists (Some r), []. split; [reflexivity|discriminate].
        -- destruct (respond w (h ++ [Did (ElemClick el 3) None]) (ElemType el text));
             (exists None; eexists; split; [reflexivity|]; intros _; eexists; reflexivity).
      * intros msg. destruct (respond w h (ElemClick el 1)); discriminate.
      * intros msg.
        destruct (respond w h (ElemClick el 3));
          [|destruct (respond w (h ++ [Did (ElemClick el 3) None]) (ElemType el text))];
          discriminate.
  - repeat split; try reflexivity; discriminate.
Qed.

Lemma primitives_throw_missing_iff_null_witness :
  completion (typeInElement None "Meeting Bot" world_ok job0 [])
    = Throw (Error "Element not found for typing") /\
  completion (clickElement None world_ok job0 [])
    = Throw (Error "Element not found for clicking") /\
  events (clickElement (Some 3%nat) world_ok job0 []) = [Did (ElemClick 3 1) None] /\
  events (typeInElement (Some 2%nat) "Meeting Bot" world_ok job0 [])
    = [Did (ElemClick 2 3) None; Did (ElemType 2 "Meeting Bot") None].
Proof.
  split; [|split].
  - apply (primitives_throw_missing_iff_null world_ok job0 [] None "Meeting Bot").
    reflexivity.
  - apply (primitives_throw_missing_iff_null world_ok job0 [] None "Meeting Bot").
    reflexivity.
  - split; reflexivity.
Defined.

(** ** What no computation of this program does *)

Section Preservation.
Context {S : Type}.

Lemma preserves_ret A (a : A) : preserves_store (@ret S A a).
Proof. intros w s h; reflexivity. Qed.

Lemma preserves_throw A e : preserves_store (@throw S A e).
Proof. intros w s h; reflexivity. Qed.

Lemma preserves_this : preserves_store (@this S).
Proof. intros w s h; reflexivity. Qed.

Lemma preserves_call o : preserves_store (@call S o).
Proof. intros w s h; unfold call, store; destruct (respond w h o); reflexivity. Qed.

Lemma preserves_page_x q : preserves_store (@page_x S q).
Proof.
  intros w s h; unfold page_x, store; destruct (xquery w h q); reflexivity.
Qed.

Lemma preserves_Date_now : preserves_store (@Date_now S).
Proof. intros w s h; reflexivity. Qed.

Lemma preserves_cwd : preserves_store (@cwd S).
Proof.
  intros w s h; unfold cwd, store; destruct (respond w h ProcessCwd); reflexivity.
Qed.

Lemma preserves_console_log msg : preserves_store (@console_log S msg).
Proof. intros w s h; reflexivity. Qed.

Lemma preserves_console_error args : preserves_store (@console_error S args).
Proof. intros w s h; reflexivity. Qed.

Lemma preserves_invoke T A (obj : T) (m : M T A) : preserves_store (@invoke S T A obj m).
Proof.
  intros w s h; unfold invoke, store. destruct (m w obj h) as [[r o'] ev]; reflexivity.
Qed.

Lemma preserves_bind A B (m : M S A) (f : A -> M S B) :
  preserves_store m -> (forall a, preserves_store (f a)) ->
  preserves_store (bind m f).
Proof.
  intros Hm Hf w s h. unfold bind, store.
  specialize (Hm w s h). unfold store in Hm.
  destruct (m w s h) as [[r s1] ev1]; simpl in Hm; subst s1.
  destruct r as [a|e]; [|reflexivity].
  specialize (Hf a w s (h ++ ev1)). unfold store in Hf.
  destruct (f a w s (h ++ ev1)) as [[r2 s2] ev2]; exact Hf.
Qed.

Lemma preserves_try_catch_finally (body : M S unit) handler fin :
  preserves_store body -> (forall e, preserves_store (handler e)) ->
  preserves_store fin ->
  preserves_store (try_catch_finally body handler fin).
Proof.
  intros Hb Hh Hf w s h. unfold try_catch_finally, store.
  specialize (Hb w s h). unfold store in Hb.
  destruct (body w s h) as [[r1 s1] ev1]; simpl in Hb; subst s1.
  assert (Hmid : snd (fst (match r1 with
                            | Normal _ => (Normal tt, s, [])
                            | Throw e => handler e w s (h ++ ev1)
                            end)) = s).
  { destruct r1 as [[]|e]; [reflexivity|apply (Hh e)]. }
  destruct (match r1 with
            | Normal _ => (Normal tt, s, [])
            | Throw e => handler e w s (h ++ ev1)
            end) as [[r2 s2] ev2]; simpl in Hmid; subst s2.
  specialize (Hf w s (h ++ ev1 ++ ev2)). unfold store in Hf.
  destruct (fin w s (h ++ ev1 ++ ev2)) as [[r3 s3] ev3]; exact Hf.
Qed.

Lemma free_ret A (a : A) : own_error_free (@ret S A a).
Proof. intros w s h; split; [discriminate|intros ? ? []]. Qed.

Lemma free_this : own_error_free (@this S).
Proof. intros w s h; split; [discriminate|intros ? ? []]. Qed.

Lemma free_throw_rejection A r : own_error_free (@throw S A (Rejection r)).
Proof. intros w s h; split; [discriminate|intros ? ? []]. Qed.

Lemma free_call o : own_error_free (@call S o).
Proof.
  intros w s h; unfold call, completion, events.
  destruct (respond w h o); simpl; (split; [discriminate|]);
    intros args msg [H|[]]; discriminate.
Qed.

Lemma free_page_x q : own_error_free (@page_x S q).
Proof.
  intros w s h; unfold page_x, completion, events.
  destruct (xquery w h q); simpl; (split; [discriminate|]);
    intros args msg [H|[]]; discriminate.
Qed.

Lemma free_Date_now : own_error_free (@Date_now S).
Proof.
  intros w s h; split; [discriminate|]. intros args msg [H|[]]; discriminate.
Qed.

Lemma free_cwd : own_error_free (@cwd S).
Proof.
  intros w s h; unfold cwd, completion, events.
  destruct (respond w h ProcessCwd); simpl; (split; [discriminate|]);
    intros args msg [H|[]]; discriminate.
Qed.

Lemma free_console_log msg : own_error_free (@console_log S msg).
Proof.
  intros w s h; split; [discriminate|]. intros args m [H|[]]; discriminate.
Qed.

Lemma free_console_error args :
  (forall msg, ~ In (AErr (Error msg)) args) ->
  own_error_free (@console_error S args).
Proof.
  intros Hargs w s h; split; [discriminate|].
  intros args' msg [H|[]]. injection H as <-. apply Hargs.
Qed.

Lemma free_invoke T A (obj : T) (m : M T A) :
  (forall w h,
      (forall msg, completion (m w obj h) <> Throw (Error msg)) /\
      (forall args msg,
          In (ConsoleError args) (events (m w obj h)) -> ~ In (AErr (Error msg)) args)) ->
  own_error_free (@invoke S T A obj m).
Proof.
  intros Hm w s h. specialize (Hm w h).
  unfold invoke, completion, events in *.
  destruct (m w obj h) as [[r o'] ev]; exact Hm.
Qed.

Lemma free_bind A B (m : M S A) (f : A -> M S B) :
  own_error_free m -> (forall a, own_error_free (f a)) ->
  own_error_free (bind m f).
Proof.
  intros Hm Hf w s h. unfold bind.
  destruct (Hm w s h) as [Hc He]. unfold completion, events in *.
  destruct (m w s h) as [[r s1] ev1]; simpl in Hc, He.
  destruct r as [a|e].
  - destruct (Hf a w s1 (h ++ ev1)) as [Hc2 He2]. unfold completion, events in *.
    destruct (f a w s1 (h ++ ev1)) as [[r2 s2] ev2]; simpl in *.
    split; [exact Hc2|].
    intros args msg Hin. apply in_app_or in Hin. destruct Hin; eauto.
  - simpl. split; [|exact He].
    intros msg Heq. injection Heq as ->. exact (Hc msg eq_refl).
Qed.

Lemma free_try_catch_finally (body : M S unit) handler fin :
  own_error_free body -> (forall r, own_error_free (handler (Rejection r))) ->
  own_error_free fin ->
  own_error_free (try_catch_finally body handler fin).
Proof.
  intros Hb Hh Hf w s h. unfold try_catch_finally.
  destruct (Hb w s h) as [Hc He]. unfold completion, events in *.
  destruct (body w s h) as [[r1 s1] ev1]; simpl in Hc, He.
  assert (Hmid :
    let mid := match r1 with
               | Normal _ => (Normal tt, s1, [])
               | Throw e => handler e w s1 (h ++ ev1)
               end in
    (forall msg, fst (fst mid) <> Throw (Error msg)) /\
    (forall args msg, In (ConsoleError args) (snd mid) -> ~ In (AErr (Error msg)) args)).
  { destruct r1 as [[]|[msg|r]].
    - split; [discriminate|intros ? ? []].
    - exfalso. exact (Hc msg eq_refl).
    - exact (Hh r w s1 (h ++ ev1)). }
  destruct (match r1 with
            | Normal _ => (Normal tt, s1, [])
            | Throw e => handler e w s1 (h ++ ev1)
            end) as [[r2 s2] ev2]; simpl in Hmid.
  destruct Hmid as [Hc2 He2].
  destruct (Hf w s2 (h ++ ev1 ++ ev2)) as [Hc3 He3]. unfold completion, events in *.
  destruct (fin w s2 (h ++ ev1 ++ ev2)) as [[r3 s3] ev3]; simpl in *.
  split.
  - destruct r3; [exact Hc2|exact Hc3].
  - intros args msg Hin.
    apply in_app_or in Hin. destruct Hin as [Hin|Hin]; [eauto|].
    apply in_app_or in Hin. destruct Hin; eauto.
Qed.
End Preservation.

(** Decomposing a computation along its binds and branches. *)
Ltac frame_step :=
  first
    [ apply preserves_bind | apply preserves_try_catch_finally
    | apply preserves_ret | apply preserves_throw | apply preserves_this
    | apply preserves_call | apply preserves_page_x | apply preserves_Date_now
    | apply preserves_cwd | apply preserves_console_log
    | apply preserves_console_error | apply preserves_invoke ].

Ltac free_step :=
  first
    [ apply free_bind | apply free_try_catch_finally
    | apply free_ret | apply free_this | apply free_call | apply free_page_x
    | apply free_Date_now | apply free_cwd | apply free_console_log
    | apply free_console_error; intros ? [?|[?|[]]]; discriminate
    | apply free_console_error; intros ? [?|[]]; discriminate ].

Ltac branches :=
  match goal with
  | |- _ (match ?x with _ => _ end) => destruct x
  | |- forall _, _ => intro
  end.

Lemma findElementByXPath_preserves q : preserves_store (findElementByXPath q).
Proof. unfold findElementByXPath. repeat (frame_step || branches). Qed.

Lemma typeInElement_preserves element text : preserves_store (typeInElement element text).
Proof. unfold typeInElement. repeat (frame_step || branches). Qed.

Lemma clickElement_preserves element : preserves_store (clickElement element).
Proof. unfold clickElement. repeat (frame_step || branches). Qed.

Lemma startRecording_preserves : preserves_store startRecording.
Proof.
  unfold startRecording, startRecording_try.
  repeat (frame_step || branches
          || apply findElementByXPath_preserves
          || apply typeInElement_preserves || apply clickElement_preserves).
Qed.

Lemma findElementByXPath_free q : own_error_free (findElementByXPath q).
Proof. unfold findElementByXPath. repeat (free_step || branches). Qed.

Lemma clickElement_free el : own_error_free (clickElement (Some el)).
Proof. unfold clickElement. free_step. Qed.

Lemma typeInElement_free el text : own_error_free (typeInElement (Some el) text).
Proof. unfold typeInElement. repeat (free_step || branches). Qed.

Lemma startRecording_free : own_error_free startRecording.
Proof.
  unfold startRecording, startRecording_try.
  repeat (free_step || branches
          || apply findElementByXPath_free
          || apply typeInElement_free || apply clickElement_free).
Qed.

Lemma constructor_free S url d dir : own_error_free (@constructor S url d dir).
Proof. unfold constructor. repeat (free_step || branches). Qed.

Lemma main_free : own_error_free main.
Proof.
  unfold main, try_catch.
  repeat (free_step || branches || apply constructor_free).
  apply free_invoke. intros w h. apply startRecording_free.
Qed.

Lemma entry_free is_main : own_error_free (entry is_main).
Proof.
  unfold entry, try_catch. destruct is_main; [|apply free_ret].
  repeat (apply main_free || free_step || branches).
Qed.

(** ** Executing [startRecording] against an arbitrary world *)

Ltac unfold_program :=
  cbv [startRecording startRecording_try findElementByXPath clickElement typeInElement
       try_catch_finally try_catch bind ret throw call page_x console_log
       console_error this events completion store fst snd recording_error_report].

(** One answer of the world: split on it. *)
Ltac run_step :=
  match goal with
  | |- context [match respond ?w ?h ?o with _ => _ end] =>
      destruct (respond w h o)
  | |- context [match xquery ?w ?h ?q with _ => _ end] =>
      destruct (xquery w h q) as [[|? ?]|?]
  end; cbn [app].

(** All runs of [startRecording], one goal for each, with the run written
    out in place of [startRecording w job h]. *)
Ltac run_program :=
  cbv zeta;
  match goal with
  | |- context [startRecording ?w ?job ?h] =>
      let run := fresh "run" in
      let Hrun := fresh "Hrun" in
      remember (startRecording w job h) as run eqn:Hrun;
      revert run Hrun;
      unfold_program; repeat run_step;
      intros run Hrun; subst run;
      cbv [events completion store fst snd]
  end.

(** [recorder.start] is only ever given the path of the job. *)
Lemma start_uses_job_path w job h p r :
  In (Did (RecorderStart p) r) (events (startRecording w job h)) ->
  p = videoOutputPath job.
Proof.
  run_program; intros Hin; in_trace; injection Hin as <- _; reflexivity.
Qed.

(** The browser is closed at most once, and once when the try block was
    entered. *)
Lemma close_once_when_try_entered w job h :
  let evs := events (startRecording w job h) in
  (count is_close evs <= 1)%nat /\
  (forall n v, In (Did (SetExtraHTTPHeaders n v) None) evs -> count is_close evs = 1%nat).
Proof.
  run_program; (split; [cbv; lia|]); intros n v Hin; in_trace; reflexivity.
Qed.

(** ** The recorder is stopped on the success path only *)

(** C1, as the code has it.  [recorder.stop] is invoked at most once in a
    run.  After a [recorder.start] that returned, the timed wait is always
    invoked; [stop] is invoked exactly once when the wait returned (also
    when [stop] itself then throws) and not at all when the wait threw.
    The browser is closed exactly once, and the run ends in one of three
    ways, nothing having thrown before the start: start, message, the wait
    throws, the error report, close; or start, message, wait, message, the
    stop throws, the error report, close; or start, message, wait, message,
    stop, the success message, close. *)
Theorem stop_once_iff_wait_returned w job h :
  let evs := events (startRecording w job h) in
  (count is_stop evs <= 1)%nat /\
  (forall p, In (Did (RecorderStart p) None) evs ->
     (exists r, In (Did (WaitForTimeout (recordingDuration job)) r) evs) /\
     (forall ms, In (Did (WaitForTimeout ms) None) evs -> count is_stop evs = 1%nat) /\
     (forall ms r, In (Did (WaitForTimeout ms) (Some r)) evs -> count is_stop evs = 0%nat) /\
     count is_close evs = 1%nat /\
     exists c,
       (exists r,
           ends_with
             [ Did (RecorderStart p) None;
               ConsoleLog ("🎥 Recording started - saving to " ++ videoOutputPath job);
               Did (WaitForTimeout (recordingDuration job)) (Some r);
               recording_error_report (Rejection r);
               Did BrowserClose c ] evs)
       \/ (exists r,
              ends_with
                [ Did (RecorderStart p) None;
                  ConsoleLog ("🎥 Recording started - saving to " ++ videoOutputPath job);
                  Did (WaitForTimeout (recordingDuration job)) None;
                  ConsoleLog "⏹️ Stopping recording...";
                  Did RecorderStop (Some r);
                  recording_error_report (Rejection r);
                  Did BrowserClose c ] evs)
       \/ ends_with
            [ Did (RecorderStart p) None;
              ConsoleLog ("🎥 Recording started - saving to " ++ videoOutputPath job);
              Did (WaitForTimeout (recordingDuration job)) None;
              ConsoleLog "⏹️ Stopping recording...";
              Did RecorderStop None;
              success_message;
              Did BrowserClose c ] evs).
Proof.
  run_program; (split; [cbv; lia|]); intros p Hin; in_trace;
    injection Hin as <-;
    (split;
     [ eexists; find_in
     | split;
       [ intros; in_trace; reflexivity
       | split;
         [ intros; in_trace; reflexivity
         | split;
           [ reflexivity
           | eexists;
             first [ left; eexists; find_end
                   | right; left; eexists; find_end
                   | right; right; find_end ] ] ] ] ]).
Qed.

(** A run in which [recorder.start] returned and [recorder.stop] was never
    invoked: the page goes away during the timed wait, the catch block
    prints the error and the finally block closes the browser. *)
Lemma stop_skipped_when_wait_throws :
  In (Did (RecorderStart (videoOutputPath job0)) None)
     (events (startRecording world_wait_fails job0 [])) /\
  count is_stop (events (startRecording world_wait_fails job0 [])) <> 1%nat /\
  startRecording world_wait_fails job0 [] =
  (Normal tt, job0,
   [ Did (Launch false launch_args) None;
     Did NewPage None;
     Did (Evaluate StubMediaDevices) None;
     Did (SetExtraHTTPHeaders "Accept-Language" "en-US,en;q=0.9") None;
     Did RequireRecorder None;
     Did (NewRecorder RecordingConfig) None;
     Did (Goto "https://meet.google.com/emr-eqin-uak" "networkidle0" 60000) None;
     Did (Evaluate WrapGetUserMedia) None;
     Did (SetViewport 1920 1080) None;
     Queried xpath_continue (Returned [1%nat]);
     Did (ElemClick 1 1) None;
     Queried xpath_name (Returned [2%nat; 7%nat]);
     Did (ElemClick 2 3) None;
     Did (ElemType 2 "Meeting Bot") None;
     Queried xpath_join (Returned [3%nat]);
     Did (ElemClick 3 1) None;
     Did (RecorderStart "/srv/report/video/meet_recording_1730000000000.mp4") None;
     ConsoleLog "🎥 Recording started - saving to /srv/report/video/meet_recording_1730000000000.mp4";
     Did (WaitForTimeout 30000) (Some "Target closed");
     recording_error_report (Rejection "Target closed");
     Did BrowserClose None ]).
Proof.
  split; [|split].
  - vm_compute. find_in.
  - vm_compute. discriminate.
  - vm_compute. reflexivity.
Qed.

(** When [recorder.stop] itself throws it has still been invoked once. *)
Example stop_throws_counts_once :
  count is_stop (events (startRecording world_stop_fails job0 [])) = 1%nat /\
  In (recording_error_report (Rejection "stream already closed"))
     (events (startRecording world_stop_fails job0 [])).
Proof. split; [reflexivity|vm_compute; find_in]. Qed.

Lemma stop_once_iff_wait_returned_witness :
  count is_stop (events (startRecording world_ok job0 [])) = 1%nat /\
  count is_stop (events (startRecording world_wait_fails job0 [])) = 0%nat.
Proof.
  split.
  - refine (proj1 (proj2 (proj2 (stop_once_iff_wait_returned world_ok job0 [])
                            (videoOutputPath job0) _)) 30000 _);
      vm_compute; find_in.
  - refine (proj1 (proj2 (proj2 (proj2 (stop_once_iff_wait_returned world_wait_fails job0 [])
                                   (videoOutputPath job0) _))) 30000 "Target closed" _);
      vm_compute; find_in.
Defined.

(** ** The browser is closed once the try block is entered *)

(** C2, at the input where it fails.  The first [page.evaluate] (the
    permission stub, line 83) is rejected after the browser was launched:
    [startRecording] throws that rejection to its caller, the try block is
    never entered, and [browser.close] is not invoked: the browser that was
    launched is left running. *)
Theorem browser_left_open_when_stub_is_rejected :
  startRecording world_stub_fails job0 [] =
  (Throw (Rejection "Execution context was destroyed"), job0,
   [ Did (Launch false launch_args) None;
     Did NewPage None;
     Did (Evaluate StubMediaDevices) (Some "Execution context was destroyed") ]) /\
  count is_close (events (startRecording world_stub_fails job0 [])) = 0%nat.
Proof. split; vm_compute; reflexivity. Qed.

(** In general: after a launch that returned, the browser is closed unless
    one of the three steps before the try block threw. *)
Lemma close_missed_only_before_try w job h :
  let evs := events (startRecording w job h) in
  In (Did (Launch false launch_args) None) evs ->
  count is_close evs = 1%nat \/
  (count is_close evs = 0%nat /\
   exists r, In (Did NewPage (Some r)) evs
             \/ In (Did (Evaluate StubMediaDevices) (Some r)) evs
             \/ In (Did (SetExtraHTTPHeaders "Accept-Language" "en-US,en;q=0.9") (Some r)) evs).
Proof.
  run_program; intros Hin; in_trace;
    first [ left; reflexivity
          | right; split; [reflexivity|]; eexists; simpl; intuition reflexivity ].
Qed.

(** ** Errors: what is caught where *)

Lemma main_run w h :
  let c := constructor (S := unit) "https://meet.google.com/emr-eqin-uak" (Some 30000) None w tt h in
  main w tt h =
  match completion c with
  | Throw e => (Throw e, tt, events c)
  | Normal job =>
      let run := startRecording w job (h ++ events c) in
      (Normal tt, tt,
       events c ++ events run ++
       match completion run with
       | Normal _ => []
       | Throw e => [ConsoleError [AStr "Meet recording failed:"; AErr e]]
       end)
  end.
Proof.
  cbv zeta. unfold main, bind.
  destruct (constructor _ _ _ w tt h) as [[[job|e] []] evc];
    cbv [completion events fst snd]; [|reflexivity].
  unfold try_catch, try_catch_finally, invoke, ret, console_error.
  destruct (startRecording w job (h ++ evc)) as [[[[]|e] job'] evr];
    rewrite ?app_nil_r; reflexivity.
Qed.

Lemma entry_never_throws is_main w h : completion (entry is_main w tt h) = Normal tt.
Proof.
  unfold entry. destruct is_main; [|reflexivity].
  unfold try_catch, try_catch_finally, ret, console_error, completion.
  destruct (main w tt h) as [[[[]|e] s] ev]; reflexivity.
Qed.

(** C3, as the code has it.  An error thrown by a step inside the try block
    (an operation of [in_try], or a [page.$x]) is caught inside
    [startRecording] and printed with [console.error]; the browser is then
    closed, and [startRecording] returns normally to its caller unless that
    close throws: the failure is reported on the console, not to the caller.
    The run ends with the step that threw, the report and the close, in this
    order, nothing having thrown before.  The entry point never throws:
    [main] catches and prints whatever [startRecording] throws at it, and
    the top-level [catch] prints whatever [main] throws, and nothing when
    [main] returns. *)
Theorem errors_in_try_are_logged_and_swallowed w job h :
  (forall o reason,
      in_try o = true ->
      In (Did o (Some reason)) (events (startRecording w job h)) ->
      caught_and_logged (startRecording w job h) (Rejection reason) /\
      exists c,
        ends_with [Did o (Some reason); recording_error_report (Rejection reason);
                   Did BrowserClose c]
          (events (startRecording w job h))) /\
  (forall q reason,
      In (Queried q (Failed reason)) (events (startRecording w job h)) ->
      caught_and_logged (startRecording w job h) (Rejection reason) /\
      exists c,
        ends_with [Queried q (Failed reason); recording_error_report (Rejection reason);
                   Did BrowserClose c]
          (events (startRecording w job h))) /\
  (forall e,
      completion (constructor (S := unit) "https://meet.google.com/emr-eqin-uak"
                    (Some 30000) None w tt h) = Normal job ->
      completion (startRecording w job
                    (h ++ events (constructor (S := unit) "https://meet.google.com/emr-eqin-uak"
                                    (Some 30000) None w tt h))) = Throw e ->
      In (ConsoleError [AStr "Meet recording failed:"; AErr e]) (events (main w tt h)) /\
      completion (main w tt h) = Normal tt) /\
  (forall is_main, completion (entry is_main w tt h) = Normal tt) /\
  events (entry true w tt h)
  = events (main w tt h) ++
    match completion (main w tt h) with
    | Normal _ => []
    | Throw e => [ConsoleError [AErr e]]
    end.
Proof.
  split; [|split; [|split; [|split]]].
  - unfold caught_and_logged. run_program; intros o' rsn Ho Hin; in_trace;
      injection Hin as <- <-; try discriminate Ho;
      (split;
       [ (split; [find_in|split; [reflexivity|]]); intros Hc; in_trace; reflexivity
       | eexists; find_end ]).
  - unfold caught_and_logged. run_program; intros q' rsn Hin; in_trace;
      injection Hin as <- <-;
      (split;
       [ (split; [find_in|split; [reflexivity|]]); intros Hc; in_trace; reflexivity
       | eexists; find_end ]).
  - intros e Hc Hr. rewrite main_run. cbv zeta. rewrite Hc, Hr. split; [|reflexivity].
    cbv [events snd]. apply in_or_app; right. apply in_or_app; right. left; reflexivity.
  - intros is_main. apply entry_never_throws.
  - unfold entry, try_catch, try_catch_finally, ret, console_error.
    destruct (main w tt h) as [[[[]|e] s] ev]; cbv [events completion fst snd];
      now rewrite ?app_nil_r.
Qed.

(** A step of the sequence throws and [startRecording] does not catch it:
    the permission stub is evaluated before the try block, so its rejection
    leaves [startRecording] as a throw and nothing is printed there.  And a
    step that is caught is not reported to the caller: after a navigation
    timeout [startRecording] completes as it does after a recording that
    went well. *)
Lemma stub_rejection_escapes_startRecording :
  In (Did (Evaluate StubMediaDevices) (Some "Execution context was destroyed"))
     (events (startRecording world_stub_fails job0 [])) /\
  completion (startRecording world_stub_fails job0 [])
    = Throw (Rejection "Execution context was destroyed") /\
  (forall args, ~ In (ConsoleError args) (events (startRecording world_stub_fails job0 []))) /\
  In (Did (Goto "https://meet.google.com/emr-eqin-uak" "networkidle0" 60000)
        (Some "Navigation timeout of 60000 ms exceeded"))
     (events (startRecording world_goto_fails job0 [])) /\
  completion (startRecording world_goto_fails job0 [])
    = completion (startRecording world_ok job0 []).
Proof.
  split; [vm_compute; find_in|split; [reflexivity|split; [|split]]].
  - intros args Hin. vm_compute in Hin. intuition discriminate.
  - vm_compute. find_in.
  - reflexivity.
Qed.

(** A navigation failure is caught: the caller of [startRecording] gets the
    same normal return as after a recording that went well. *)
Example navigation_failure_returns_normally :
  completion (startRecording world_goto_fails job0 []) = Normal tt /\
  completion (startRecording world_ok job0 []) = Normal tt /\
  events (startRecording world_goto_fails job0 []) =
  [ Did (Launch false launch_args) None;
    Did NewPage None;
    Did (Evaluate StubMediaDevices) None;
    Did (SetExtraHTTPHeaders "Accept-Language" "en-US,en;q=0.9") None;
    Did RequireRecorder None;
    Did (NewRecorder RecordingConfig) None;
    Did (Goto "https://meet.google.com/emr-eqin-uak" "networkidle0" 60000)
      (Some "Navigation timeout of 60000 ms exceeded");
    recording_error_report (Rejection "Navigation timeout of 60000 ms exceeded");
    Did BrowserClose None ].
Proof. repeat split; vm_compute; reflexivity. Qed.

(** What the whole program prints when the stub is rejected. *)
Example entry_run_stub_rejected :
  entry true world_stub_fails tt [] =
  (Normal tt, tt,
   [ Cwd "/srv";
     Did (MkdirSync "/srv/report/video") None;
     Now 1730000000000;
     Did (Launch false launch_args) None;
     Did NewPage None;
     Did (Evaluate StubMediaDevices) (Some "Execution context was destroyed");
     ConsoleError [AStr "Meet recording failed:";
                   AErr (Rejection "Execution context was destroyed")] ]).
Proof. vm_compute. reflexivity. Qed.

(** When the directory cannot be made, [main] itself throws and the
    top-level catch prints the error. *)
Example entry_run_mkdir_fails :
  entry true world_mkdir_fails tt [] =
  (Normal tt, tt,
   [ Cwd "/srv";
     Did (MkdirSync "/srv/report/video") (Some "EACCES: permission denied");
     ConsoleError [AErr (Rejection "EACCES: permission denied")] ]).
Proof. vm_compute. reflexivity. Qed.

(** When the working directory is gone, [main] throws before anything
    else happens and the top-level catch prints the error. *)
Example entry_run_cwd_fails :
  entry true world_cwd_fails tt [] =
  (Normal tt, tt,
   [ Did ProcessCwd (Some "ENOENT: no such file or directory, uv_cwd");
     ConsoleError [AErr (Rejection "ENOENT: no such file or directory, uv_cwd")] ]).
Proof. vm_compute. reflexivity. Qed.

Lemma errors_in_try_are_logged_and_swallowed_witness :
  caught_and_logged (startRecording world_goto_fails job0 [])
    (Rejection "Navigation timeout of 60000 ms exceeded").
Proof.
  refine (proj1 (proj1 (errors_in_try_are_logged_and_swallowed world_goto_fails job0 [])
                   (Goto "https://meet.google.com/emr-eqin-uak" "networkidle0" 60000)
                   "Navigation timeout of 60000 ms exceeded" _ _)).
  - reflexivity.
  - vm_compute. find_in.
Defined.

(** C4.  When [recorder.start] throws, the catch block prints that error,
    the browser is closed exactly once, [recorder.stop] is not invoked, and
    the success message is not printed. *)
Theorem start_failure_closes_browser_without_stop w job h p reason :
  In (Did (RecorderStart p) (Some reason)) (events (startRecording w job h)) ->
  In (recording_error_report (Rejection reason)) (events (startRecording w job h)) /\
  count is_close (events (startRecording w job h)) = 1%nat /\
  count is_stop (events (startRecording w job h)) = 0%nat /\
  ~ In (ConsoleLog "✅ Recording saved successfully!") (events (startRecording w job h)).
Proof.
  run_program; intros Hin; in_trace; injection Hin as <- <-;
    (split; [find_in|split; [reflexivity|split; [reflexivity|]]]);
    intros Hlog; in_trace.
Qed.

Lemma start_failure_closes_browser_without_stop_witness :
  In (recording_error_report (Rejection "ffmpeg not found"))
     (events (startRecording world_start_fails job0 [])) /\
  count is_close (events (startRecording world_start_fails job0 [])) = 1%nat /\
  count is_stop (events (startRecording world_start_fails job0 [])) = 0%nat /\
  ~ In (ConsoleLog "✅ Recording saved successfully!")
       (events (startRecording world_start_fails job0 [])).
Proof.
  apply (start_failure_closes_browser_without_stop world_start_fails job0 []
           (videoOutputPath job0) "ffmpeg not found").
  vm_compute. find_in.
Defined.

(** ** The navigator *)

Ltac navigator_case :=
  intros; in_trace;
  match goal with
  | H : Queried _ _ = Queried _ _ |- _ => injection H as <- <-
  | _ => idtac
  end;
  eexists;
  first
    [ solve [find_follows]
    | split;
      [ solve [find_follows]
      | intros Hr; first [ discriminate Hr | eexists; solve [find_follows] ] ] ].

Ltac navigator_chain :=
  intros Hview Hnone; in_trace;
  cbv [existsb navigator_failed orb] in Hnone;
  first
    [ discriminate Hnone
    | lazymatch goal with
      | |- exists _ _ _ _, occurs _ ?evs =>
          lazymatch evs with
          | context [Queried xpath_continue (Returned ?f1)] =>
              lazymatch evs with
              | context [Queried xpath_name (Returned ?f2)] =>
                  lazymatch evs with
                  | context [Queried xpath_join (Returned ?f3)] => exists f1, f2, f3
                  end
              end
          end
      end;
      eexists; cbn [clicked typed app]; find_occurs ].


(** C7.  In every run: a query of one of the three steps that finds nothing
    is followed at once by the query of the next step (for the third step:
    by [recorder.start] on the job's path), so the step is skipped and
    nothing is thrown for it; a query that finds elements is followed at
    once by the action on the first of them (a click; for the name field a
    triple click and, when that returned, the typing of the display
    name).  And the steps after a step do proceed: in a run that set the
    viewport and in which no query and no action on an element threw, the
    viewport is followed, without a gap, by the first query, the click on
    what it found if it found something, the second query, the triple click
    and the typing on what it found if it found something, the third query,
    the click on what it found if it found something, and
    [recorder.start] on the job's path. *)
Theorem navigator_steps_are_optional w job h :
  let evs := events (startRecording w job h) in
  (In (Queried xpath_continue (Returned [])) evs ->
     exists r, follows (Queried xpath_continue (Returned [])) (Queried xpath_name r) evs) /\
  (In (Queried xpath_name (Returned [])) evs ->
     exists r, follows (Queried xpath_name (Returned [])) (Queried xpath_join r) evs) /\
  (In (Queried xpath_join (Returned [])) evs ->
     exists r, follows (Queried xpath_join (Returned []))
                 (Did (RecorderStart (videoOutputPath job)) r) evs) /\
  (forall el rest, In (Queried xpath_continue (Returned (el :: rest))) evs ->
     exists r, follows (Queried xpath_continue (Returned (el :: rest)))
                 (Did (ElemClick el 1) r) evs) /\
  (forall el rest, In (Queried xpath_name (Returned (el :: rest))) evs ->
     exists r, follows (Queried xpath_name (Returned (el :: rest)))
                 (Did (ElemClick el 3) r) evs /\
               (r = None ->
                exists r', follows (Did (ElemClick el 3) None)
                             (Did (ElemType el "Meeting Bot") r') evs)) /\
  (forall el rest, In (Queried xpath_join (Returned (el :: rest))) evs ->
     exists r, follows (Queried xpath_join (Returned (el :: rest)))
                 (Did (ElemClick el 1) r) evs) /\
  (In (Did (SetViewport 1920 1080) None) evs ->
   existsb navigator_failed evs = false ->
   exists found1 found2 found3 r,
     occurs
       (Did (SetViewport 1920 1080) None
        :: Queried xpath_continue (Returned found1) :: clicked found1
        ++ Queried xpath_name (Returned found2) :: typed found2
        ++ Queried xpath_join (Returned found3) :: clicked found3
        ++ [Did (RecorderStart (videoOutputPath job)) r])
       evs).
Proof.
  run_program;
    (split;
     [ navigator_case
     | split;
       [ navigator_case
       | split;
         [ navigator_case
         | split;
           [ navigator_case
           | split;
             [ navigator_case
             | split; [ navigator_case | navigator_chain ] ] ] ] ] ]).
Qed.

Lemma navigator_steps_are_optional_witness :
  (exists r,
      follows (Queried xpath_continue (Returned [])) (Queried xpath_name r)
        (events (startRecording world_granted job0 []))) /\
  (exists found1 found2 found3 r,
      occurs
        (Did (SetViewport 1920 1080) None
         :: Queried xpath_continue (Returned found1) :: clicked found1
         ++ Queried xpath_name (Returned found2) :: typed found2
         ++ Queried xpath_join (Returned found3) :: clicked found3
         ++ [Did (RecorderStart (videoOutputPath job0)) r])
        (events (startRecording world_granted job0 []))).
Proof.
  split.
  - apply (proj1 (navigator_steps_are_optional world_granted job0 [])).
    vm_compute. find_in.
  - apply (proj2 (proj2 (proj2 (proj2 (proj2 (proj2
             (navigator_steps_are_optional world_granted job0 []))))))).
    + vm_compute. find_in.
    + vm_compute. reflexivity.
Defined.

(** Scenario B of the specification, run: the microphone prompt is not
    there, the name is typed and the join button clicked. *)
Example scenario_B :
  events (startRecording world_granted job0 []) =
  [ Did (Launch false launch_args) None;
    Did NewPage None;
    Did (Evaluate StubMediaDevices) None;
    Did (SetExtraHTTPHeaders "Accept-Language" "en-US,en;q=0.9") None;
    Did RequireRecorder None;
    Did (NewRecorder RecordingConfig) None;
    Did (Goto "https://meet.google.com/emr-eqin-uak" "networkidle0" 60000) None;
    Did (Evaluate WrapGetUserMedia) None;
    Did (SetViewport 1920 1080) None;
    Queried xpath_continue (Returned []);
    Queried xpath_name (Returned [2%nat; 7%nat]);
    Did (ElemClick 2 3) None;
    Did (ElemType 2 "Meeting Bot") None;
    Queried xpath_join (Returned [3%nat]);
    Did (ElemClick 3 1) None;
    Did (RecorderStart "/srv/report/video/meet_recording_1730000000000.mp4") None;
    ConsoleLog "🎥 Recording started - saving to /srv/report/video/meet_recording_1730000000000.mp4";
    Did (WaitForTimeout 30000) None;
    ConsoleLog "⏹️ Stopping recording...";
    Did RecorderStop None;
    ConsoleLog "✅ Recording saved successfully!";
    Did BrowserClose None ].
Proof. vm_compute. reflexivity. Qed.

(** ** The fields of a job *)

(** C9.  No method writes a field: [startRecording], run once and run
    again on what the first run left, leaves [meetUrl], [recordingDuration]
    and [videoOutputPath] as they were, and every [recorder.start] of the
    two runs is given the same path, the job's.  The three private methods
    leave the fields alone as well. *)
Theorem fields_never_mutated w job h :
  let first := startRecording w job h in
  let second := startRecording w (store first) (h ++ events first) in
  store first = job /\
  store second = job /\
  (forall p r, In (Did (RecorderStart p) r) (events first ++ events second) ->
     p = videoOutputPath job) /\
  (forall xpath h', store (findElementByXPath xpath w job h') = job) /\
  (forall element text h', store (typeInElement element text w job h') = job) /\
  (forall element h', store (clickElement element w job h') = job).
Proof.
  cbv zeta.
  rewrite (startRecording_preserves w job h).
  rewrite (startRecording_preserves w job (h ++ events (startRecording w job h))).
  repeat split.
  - intros p r Hin. apply in_app_or in Hin.
    destruct Hin as [Hin|Hin]; exact (start_uses_job_path _ _ _ _ _ Hin).
  - intros xpath h'. apply findElementByXPath_preserves.
  - intros element text h'. apply typeInElement_preserves.
  - intros element h'. apply clickElement_preserves.
Qed.

(** ** The element-missing errors *)

(** C10.  No run of [startRecording] throws an error made by
    [new Error(...)], and none prints one: the two element-missing errors
    of [typeInElement] and [clickElement] are never raised, because both
    are only called on an element that was found.  The same holds for the
    whole program. *)
Theorem element_missing_unreachable w job h :
  (forall msg, completion (startRecording w job h) <> Throw (Error msg)) /\
  (forall args msg,
      In (ConsoleError args) (events (startRecording w job h)) ->
      ~ In (AErr (Error msg)) args) /\
  (forall is_main msg, completion (entry is_main w tt h) <> Throw (Error msg)) /\
  (forall is_main args msg,
      In (ConsoleError args) (events (entry is_main w tt h)) ->
      ~ In (AErr (Error msg)) args).
Proof.
  destruct (startRecording_free w job h) as [Hc He].
  split; [exact Hc|split; [exact He|split]].
  - intros is_main. apply (entry_free is_main w tt h).
  - intros is_main. apply (entry_free is_main w tt h).
Qed.

(** The guard matters: without it the primitive does throw. *)
Example clickElement_unguarded :
  completion (clickElement None world_ok job0 []) = Throw (Error "Element not found for clicking").
Proof. reflexivity. Qed.

(** * More of the program *)

(** ** The shape of a run *)

Lemma final_snoc evs e : final (evs ++ [e]) = Some e.
Proof. unfold final. rewrite map_app. simpl. apply last_last. Qed.

Lemma final_split evs e : final evs = Some e -> exists before, evs = before ++ [e].
Proof.
  unfold final. intros H.
  destruct evs as [|x evs] using rev_ind; [discriminate H|].
  rewrite map_app in H. simpl in H. rewrite last_last in H.
  injection H as ->. now exists evs.
Qed.

(** What [startRecording] throws is what its last step threw, and that
    step is outside the try block. *)
Lemma startRecording_throw_last w job h e :
  completion (startRecording w job h) = Throw e ->
  exists o r,
    final (events (startRecording w job h)) = Some (Did o (Some r)) /\
    around_try o = true /\ e = Rejection r.
Proof.
  run_program; cbv [final map last]; intros Hc;
    first [ discriminate Hc
          | injection Hc as <-; do 2 eexists; repeat split; reflexivity ].
Qed.

(** [startRecording] prints no error but with its own label. *)
Lemma startRecording_prints_only_its_report w job h args :
  In (ConsoleError args) (events (startRecording w job h)) ->
  exists e, ConsoleError args = recording_error_report e.
Proof.
  run_program; intros Hin; in_trace; injection Hin as <-; eexists; reflexivity.
Qed.

(** X1.  A step that throws inside the try block ends the run: in every
    run, an operation of the try block (or a [page.$x]) that threw is
    followed by the error report of the catch block and by the closing of
    the browser, and by nothing else; nothing had thrown before it.  So no
    step is retried and no later step runs after a failure. *)
Theorem failure_in_try_ends_run w job h :
  (forall o r,
      in_try o = true ->
      In (Did o (Some r)) (events (startRecording w job h)) ->
      exists c,
        ends_with [Did o (Some r); recording_error_report (Rejection r); Did BrowserClose c]
          (events (startRecording w job h))) /\
  (forall q r,
      In (Queried q (Failed r)) (events (startRecording w job h)) ->
      exists c,
        ends_with [Queried q (Failed r); recording_error_report (Rejection r);
                   Did BrowserClose c]
          (events (startRecording w job h))).
Proof.
  split.
  - run_program; intros o' rsn Ho Hin; in_trace; injection Hin as <- <-;
      try discriminate Ho; eexists; find_end.
  - run_program; intros q' rsn Hin; in_trace; injection Hin as <- <-;
      eexists; find_end.
Qed.

(** X2.  [startRecording] throws exactly when its last step is one of the
    steps around the try block (launch, new page, permission stub, HTTP
    headers, browser close) and that step threw; it throws what the step
    threw. *)
Theorem startRecording_throws_iff_outside_try w job h e :
  completion (startRecording w job h) = Throw e <->
  exists o r,
    final (events (startRecording w job h)) = Some (Did o (Some r)) /\
    around_try o = true /\ e = Rejection r.
Proof.
  split; [apply startRecording_throw_last|].
  run_program; cbv [final map last];
    intros (o' & rsn & Hf & Ho & ->);
    first [ discriminate Hf
          | injection Hf as <- <-; first [ discriminate Ho | reflexivity ] ].
Qed.

(** X3.  The success message is printed exactly in the runs in which
    [recorder.stop] returned.  In such a run no error report is printed,
    [recorder.start] was given the job's path and returned, the wait of the
    job's duration returned, and [stop] and [close] were each invoked
    once. *)
Theorem success_message_iff_stop_returned w job h :
  (In success_message (events (startRecording w job h)) <->
   In (Did RecorderStop None) (events (startRecording w job h))) /\
  (In success_message (events (startRecording w job h)) ->
   (forall e, ~ In (recording_error_report e) (events (startRecording w job h))) /\
   In (Did (RecorderStart (videoOutputPath job)) None) (events (startRecording w job h)) /\
   In (Did (WaitForTimeout (recordingDuration job)) None) (events (startRecording w job h)) /\
   count is_stop (events (startRecording w job h)) = 1%nat /\
   count is_close (events (startRecording w job h)) = 1%nat).
Proof.
  unfold success_message.
  run_program; (split; [split|]); intros Hin; in_trace;
    first
      [ find_in'
      | split; [intros e He; unfold recording_error_report in He; in_trace|];
        split; [find_in'|split; [find_in'|split; reflexivity]] ].
Qed.

(** X4.  A run in which no collaborator throws returns normally and ends
    with: start of the recorder on the job's path, its message, the wait of
    the job's duration, its message, the stop of the recorder, the success
    message, the closing of the browser. *)
Theorem run_without_failure_records_and_closes w job h :
  all_returned (events (startRecording w job h)) = true ->
  completion (startRecording w job h) = Normal tt /\
  ends_with
    [ Did (RecorderStart (videoOutputPath job)) None;
      ConsoleLog ("🎥 Recording started - saving to " ++ videoOutputPath job);
      Did (WaitForTimeout (recordingDuration job)) None;
      ConsoleLog "⏹️ Stopping recording...";
      Did RecorderStop None;
      success_message;
      Did BrowserClose None ]
    (events (startRecording w job h)).
Proof.
  run_program; intros Hall; cbv [all_returned forallb failed negb andb] in Hall;
    first [ discriminate Hall | split; [reflexivity|find_end] ].
Qed.

(** X5.  Whenever [recorder.start] is invoked, everything before it
    returned: in particular the navigation to the job's URL, the second
    permission script, the viewport, and the three element queries. *)
Theorem recording_starts_after_navigation w job h p r :
  In (Did (RecorderStart p) r) (events (startRecording w job h)) ->
  let before := upto is_start (events (startRecording w job h)) in
  all_returned before = true /\
  In (Did (Goto (meetUrl job) "networkidle0" 60000) None) before /\
  In (Did (Evaluate WrapGetUserMedia) None) before /\
  In (Did (SetViewport 1920 1080) None) before /\
  (exists found, In (Queried xpath_continue (Returned found)) before) /\
  (exists found, In (Queried xpath_name (Returned found)) before) /\
  (exists found, In (Queried xpath_join (Returned found)) before).
Proof.
  run_program; intros Hin; in_trace; cbv [upto is_start];
    (split; [reflexivity|]); repeat split; try find_in'; eexists; find_in'.
Qed.

(** X6.  The navigator acts on first matches only.  Every click of a run
    is on the first element a query of that run returned: a single click
    for the two prompts, a triple click for the name field; text is only
    typed into the first match of the name query, after its triple click
    returned, and the text is "Meeting Bot". *)
Theorem actions_only_on_first_match w job h :
  (forall el n r,
      In (Did (ElemClick el n) r) (events (startRecording w job h)) ->
      (n = 1%nat /\
       exists others,
         In (Queried xpath_continue (Returned (el :: others))) (events (startRecording w job h))
         \/ In (Queried xpath_join (Returned (el :: others))) (events (startRecording w job h)))
      \/ (n = 3%nat /\
          exists others,
            In (Queried xpath_name (Returned (el :: others))) (events (startRecording w job h)))) /\
  (forall el text r,
      In (Did (ElemType el text) r) (events (startRecording w job h)) ->
      text = "Meeting Bot" /\
      In (Did (ElemClick el 3) None) (events (startRecording w job h)) /\
      exists others,
        In (Queried xpath_name (Returned (el :: others))) (events (startRecording w job h))).
Proof.
  run_program; (split; [intros el n' r' Hin|intros el text r' Hin]); in_trace;
    first
      [ injection Hin as <- <- <-;
        first
          [ left; split; [reflexivity|]; eexists;
            first [ left; find_in' | right; find_in' ]
          | right; split; [reflexivity|]; eexists; find_in' ]
      | injection Hin as <- <- <-;
        split; [reflexivity|split; [find_in'|eexists; find_in']] ].
Qed.

(** X7.  What a job holds is what the collaborators get: every
    [page.goto] of a run is for the job's URL, waits for [networkidle0] and
    has a timeout of 60000; every timed wait is of the job's duration; and
    the only progress messages are the three of lines 146, 151 and 153, the
    first naming the job's output path. *)
Theorem job_fields_reach_collaborators w job h :
  (forall url waitUntil timeout r,
      In (Did (Goto url waitUntil timeout) r) (events (startRecording w job h)) ->
      url = meetUrl job /\ waitUntil = "networkidle0" /\ timeout = 60000) /\
  (forall ms r,
      In (Did (WaitForTimeout ms) r) (events (startRecording w job h)) ->
      ms = recordingDuration job) /\
  (forall msg,
      In (ConsoleLog msg) (events (startRecording w job h)) ->
      msg = ("🎥 Recording started - saving to " ++ videoOutputPath job)%string
      \/ msg = "⏹️ Stopping recording..."
      \/ msg = "✅ Recording saved successfully!").
Proof.
  run_program; (split; [|split]); intros; in_trace;
    match goal with
    | H : Did _ _ = Did _ _ |- _ => injection H; intros; subst; repeat split; reflexivity
    | H : ConsoleLog _ = ConsoleLog _ |- _ => injection H as <-; tauto
    end.
Qed.

(** X8.  No step is repeated: a run launches one browser, as its first
    step, and invokes [page.goto], [recorder.start], the timed wait,
    [recorder.stop] and [browser.close] at most once each; when the browser
    is closed, that is the last thing the run does. *)
Theorem each_step_at_most_once w job h :
  let evs := events (startRecording w job h) in
  count is_launch evs = 1%nat /\
  (exists r rest, evs = Did (Launch false launch_args) r :: rest) /\
  (count is_goto evs <= 1)%nat /\
  (count is_start evs <= 1)%nat /\
  (count is_wait evs <= 1)%nat /\
  (count is_stop evs <= 1)%nat /\
  (count is_close evs <= 1)%nat /\
  (forall c, In (Did BrowserClose c) evs -> final evs = Some (Did BrowserClose c)).
Proof.
  run_program;
    (split; [reflexivity|]);
    (split; [do 2 eexists; reflexivity|]);
    (split; [cbv; lia|]); (split; [cbv; lia|]); (split; [cbv; lia|]);
    (split; [cbv; lia|]); (split; [cbv; lia|]);
    intros c Hin; in_trace; injection Hin as <-; reflexivity.
Qed.

(** X9.  [findElementByXPath] tells "no match" from "query failed": it
    returns [null] exactly when [page.$x] answered with the empty list, an
    element exactly when that element is the first of the answer, and it
    throws exactly when [page.$x] threw, the same error. *)
Theorem findElementByXPath_null_iff_no_match w job h xpath :
  (completion (findElementByXPath xpath w job h) = Normal None <->
   xquery w h xpath = Returned []) /\
  (forall el,
      completion (findElementByXPath xpath w job h) = Normal (Some el) <->
      exists others, xquery w h xpath = Returned (el :: others)) /\
  (forall e,
      completion (findElementByXPath xpath w job h) = Throw e <->
      exists r, xquery w h xpath = Failed r /\ e = Rejection r).
Proof.
  rewrite findElementByXPath_run.
  destruct (xquery w h xpath) as [[|first others]|r]; cbv [completion fst hd_error].
  - split; [tauto|split].
    + intros el; split; [discriminate|intros (o & Ho); discriminate Ho].
    + intros e; split; [discriminate|intros (r & Hr & _); discriminate Hr].
  - split; [split; discriminate|split].
    + intros el; split.
      * intros [= <-]. now exists others.
      * intros (o & [= <- _]). reflexivity.
    + intros e; split; [discriminate|intros (r & Hr & _); discriminate Hr].
  - split; [split; discriminate|split].
    + intros el; split; [discriminate|intros (o & Ho); discriminate Ho].
    + intros e; split.
      * intros [= <-]. now exists r.
      * intros (r' & [= <-] & ->). reflexivity.
Qed.

(** X10.  [typeInElement] on an element types only after the triple click
    that selects the old text returned: it completes normally exactly when
    both returned; when the click throws nothing is typed, and either
    failure is thrown on to the caller. *)
Theorem typeInElement_types_after_select_all w job h el text :
  let run := typeInElement (Some el) text w job h in
  (completion run = Normal tt <->
   events run = [Did (ElemClick el 3) None; Did (ElemType el text) None]) /\
  (forall r,
      In (Did (ElemClick el 3) (Some r)) (events run) ->
      events run = [Did (ElemClick el 3) (Some r)] /\
      completion run = Throw (Rejection r)) /\
  (forall r,
      In (Did (ElemType el text) (Some r)) (events run) ->
      events run = [Did (ElemClick el 3) None; Did (ElemType el text) (Some r)] /\
      completion run = Throw (Rejection r)).
Proof.
  cbv zeta. rewrite typeInElement_run.
  destruct (respond w h (ElemClick el 3)) as [r3|];
    [|destruct (respond w (h ++ [Did (ElemClick el 3) None]) (ElemType el text)) as [rt|]];
    cbv [completion events fst snd];
    (split; [split; [discriminate || reflexivity|discriminate || reflexivity]|]);
    (split; intros r Hin; in_trace; try (injection Hin as <-); split; reflexivity).
Qed.

(** X11.  The constructor fails only when the working directory cannot be
    read or the video directory cannot be made: it throws exactly when
    [process.cwd] threw, and that is then all it did, or [fs.mkdirSync]
    threw, and that is then the last thing it did; it throws the same
    error, and the clock is not read.  [fs.mkdirSync] is given the directory
    of the job.  The working directory is asked for exactly when no
    directory was given.  Nothing is written to the store of the caller. *)
Theorem constructor_fails_only_on_cwd_or_mkdir S w (s : S) h url duration videoDir :
  let run := constructor url duration videoDir w s h in
  (forall e,
      completion run = Throw e <->
      exists r,
        e = Rejection r /\
        (events run = [Did ProcessCwd (Some r)]
         \/ exists d, final (events run) = Some (Did (MkdirSync d) (Some r)))) /\
  (forall r,
      In (Did ProcessCwd (Some r)) (events run) ->
      videoDir = None /\ events run = [Did ProcessCwd (Some r)]) /\
  (forall d r,
      In (Did (MkdirSync d) r) (events run) ->
      d = default_to (path_join [process_cwd w h; "report"; "video"]) videoDir) /\
  (forall d r,
      In (Did (MkdirSync d) (Some r)) (events run) ->
      final (events run) = Some (Did (MkdirSync d) (Some r))) /\
  (forall t, In (Now t) (events run) -> exists job, completion run = Normal job) /\
  ((exists c, In (Cwd c) (events run)) \/ (exists r, In (Did ProcessCwd r) (events run))
   <-> videoDir = None) /\
  store run = s.
Proof.
  cbv zeta. unfold constructor, bind, ret, cwd, call, Date_now.
  destruct videoDir as [d|]; simpl default_to; cbn [app].
  - destruct (respond w (h ++ []) (MkdirSync d)) as [r|];
      cbv [completion events store fst snd final map last app];
      (split; [|split; [|split; [|split; [|split; [|split]]]]]).
    + intros e; split.
      * intros [= <-]. exists r. split; [reflexivity|]. right. now exists d.
      * intros (r' & -> & [Hev|(d' & [= _ <-])]); [discriminate Hev|reflexivity].
    + intros r' Hin. in_trace.
    + intros d' r' Hin. in_trace. now injection Hin.
    + intros d' r' Hin. in_trace. injection Hin as <- <-. reflexivity.
    + intros t Ht. in_trace.
    + split; [intros [(c & Hc)|(r' & Hr)]; in_trace|discriminate].
    + reflexivity.
    + intros e; split; [discriminate|].
      intros (r' & _ & [Hev|(d' & Hf)]); discriminate.
    + intros r' Hin. in_trace.
    + intros d' r' Hin. in_trace. now injection Hin.
    + intros d' r' Hin. in_trace.
    + intros t Ht. eexists. reflexivity.
    + split; [intros [(c & Hc)|(r' & Hr)]; in_trace|discriminate].
    + reflexivity.
  - destruct (respond w h ProcessCwd) as [rc|];
      [|cbn [app];
        destruct (respond w (h ++ [Cwd (process_cwd w h)])
                    (MkdirSync (path_join [process_cwd w h; "report"; "video"]))) as [r|]];
      cbv [completion events store fst snd final map last app];
      (split; [|split; [|split; [|split; [|split; [|split]]]]]).
    + intros e; split.
      * intros [= <-]. exists rc. split; [reflexivity|]. now left.
      * intros (r' & -> & [[= <-]|(d' & Hf)]); [reflexivity|discriminate Hf].
    + intros r' Hin. in_trace. injection Hin as <-. split; reflexivity.
    + intros d' r' Hin. in_trace.
    + intros d' r' Hin. in_trace.
    + intros t Ht. in_trace.
    + split; [reflexivity|]. intros _. right. eexists. find_in.
    + reflexivity.
    + intros e; split.
      * intros [= <-]. exists r. split; [reflexivity|]. right. eexists. reflexivity.
      * intros (r' & -> & [Hev|(d' & [= _ <-])]); [discriminate Hev|reflexivity].
    + intros r' Hin. in_trace.
    + intros d' r' Hin. in_trace. now injection Hin.
    + intros d' r' Hin. in_trace. injection Hin as <- <-. reflexivity.
    + intros t Ht. in_trace.
    + split; [reflexivity|]. intros _. left. eexists. find_in.
    + reflexivity.
    + intros e; split; [discriminate|].
      intros (r' & _ & [Hev|(d' & Hf)]); discriminate.
    + intros r' Hin. in_trace.
    + intros d' r' Hin. in_trace. now injection Hin.
    + intros d' r' Hin. in_trace.
    + intros t Ht. eexists. reflexivity.
    + split; [reflexivity|]. intros _. left. eexists. find_in.
    + reflexivity.
Qed.

(** X12.  [main] prints "Meet recording failed:" only for a failure of a
    step around the try block of [startRecording], right after that step,
    and then completes normally: navigation, element and recorder failures
    never reach it.  [main] itself throws only when the working directory
    could not be read or the video directory could not be made, and then it
    has done nothing else: no browser is launched. *)
Theorem main_reports_only_failures_around_try w h :
  (forall e,
      In (main_error_report e) (events (main w tt h)) ->
      exists o r before,
        e = Rejection r /\ around_try o = true /\
        events (main w tt h) = before ++ [Did o (Some r); main_error_report e] /\
        completion (main w tt h) = Normal tt) /\
  (forall e,
      completion (main w tt h) = Throw e ->
      exists r,
        e = Rejection r /\
        (events (main w tt h) = [Did ProcessCwd (Some r)]
         \/ exists dir,
              events (main w tt h)
              = [Cwd (process_cwd w h); Did (MkdirSync dir) (Some r)])).
Proof.
  rewrite main_run. cbv zeta.
  unfold constructor, bind, ret, cwd, call, Date_now. cbn [default_to app].
  destruct (respond w h ProcessCwd) as [rc|];
    [|cbn [app];
      destruct (respond w (h ++ [Cwd (process_cwd w h)])
                  (MkdirSync (path_join [process_cwd w h; "report"; "video"]))) as [r|]];
    cbv [completion events fst snd].
  - split.
    + intros e Hin. unfold main_error_report in Hin. in_trace.
    + intros e [= <-]. eexists. split; [reflexivity|]. now left.
  - split.
    + intros e Hin. unfold main_error_report in Hin. in_trace.
    + intros e [= <-]. eexists. split; [reflexivity|]. right. eexists. reflexivity.
  - split; [|discriminate].
    intros e Hin.
    match goal with
    | _ : context [startRecording w ?j ?h'] |- _ =>
        pose proof (startRecording_throw_last w j h') as Hlast;
        pose proof (fun args => startRecording_prints_only_its_report w j h' args) as Hrep;
        destruct (startRecording w j h') as [[c j'] evr]
    end.
    cbv [completion events fst snd] in *.
    unfold main_error_report in Hin.
    cbn [app] in Hin. in_trace.
    apply in_app_or in Hin. destruct Hin as [Hin|Hin].
    + apply Hrep in Hin. destruct Hin as (e' & He'). discriminate He'.
    + destruct c as [[]|e']; [destruct Hin|].
      destruct Hin as [Hin|[]]. injection Hin as ->.
      destruct (Hlast e eq_refl) as (o & r' & Hf & Ho & ->).
      apply final_split in Hf. destruct Hf as (before & ->).
      exists o, r'.
      match goal with
      | |- exists _, _ /\ _ /\ ?evc ++ _ ++ _ = _ /\ _ => exists (evc ++ before)
      end.
      split; [reflexivity|split; [exact Ho|split; [|reflexivity]]].
      unfold main_error_report. now rewrite <- !app_assoc.
Qed.

Lemma failure_in_try_ends_run_witness :
  exists c,
    ends_with
      [ Did (Goto "https://meet.google.com/emr-eqin-uak" "networkidle0" 60000)
          (Some "Navigation timeout of 60000 ms exceeded");
        recording_error_report (Rejection "Navigation timeout of 60000 ms exceeded");
        Did BrowserClose c ]
      (events (startRecording world_goto_fails job0 [])).
Proof.
  apply (proj1 (failure_in_try_ends_run world_goto_fails job0 [])
           (Goto "https://meet.google.com/emr-eqin-uak" "networkidle0" 60000)).
  - reflexivity.
  - vm_compute. find_in.
Defined.

Lemma run_without_failure_records_and_closes_witness :
  completion (startRecording world_ok job0 []) = Normal tt /\
  ends_with
    [ Did (RecorderStart (videoOutputPath job0)) None;
      ConsoleLog ("🎥 Recording started - saving to " ++ videoOutputPath job0);
      Did (WaitForTimeout (recordingDuration job0)) None;
      ConsoleLog "⏹️ Stopping recording...";
      Did RecorderStop None;
      success_message;
      Did BrowserClose None ]
    (events (startRecording world_ok job0 [])).
Proof.
  apply (run_without_failure_records_and_closes world_ok job0 []).
  vm_compute. reflexivity.
Defined.

Lemma recording_starts_after_navigation_witness :
  all_returned (upto is_start (events (startRecording world_start_fails job0 []))) = true /\
  In (Did (Goto (meetUrl job0) "networkidle0" 60000) None)
     (upto is_start (events (startRecording world_start_fails job0 []))).
Proof.
  destruct (recording_starts_after_navigation world_start_fails job0 []
              (videoOutputPath job0) (Some "ffmpeg not found")) as (Hall & Hgoto & _).
  - vm_compute. find_in.
  - split; [exact Hall|exact Hgoto].
Defined.

Lemma main_reports_only_failures_around_try_witness :
  exists o r before,
    Rejection "Execution context was destroyed" = Rejection r /\
    around_try o = true /\
    events (main world_stub_fails tt [])
      = before ++ [Did o (Some r);
                   main_error_report (Rejection "Execution context was destroyed")] /\
    completion (main world_stub_fails tt []) = Normal tt.
Proof.
  apply (proj1 (main_reports_only_failures_around_try world_stub_fails [])).
  vm_compute. find_in.
Defined.
